(** * Parasite_estimation_live: the ARIMAX forecast page, [pages/2_forecast.py]

    A shallow embedding of the forecasting core of the repository and the
    properties its specification states about it.

    - Python [float] and numpy [float64] values are IEEE binary64 numbers,
      modelled by the Standard Library's [spec_float] at precision 53 and
      maximal exponent 1024; comparisons and division are the library's
      [SFcompare] and [SFdiv].
    - Python exceptions are modelled by a small result type.
    - The statistical library calls ([SARIMAX(...).fit], [adfuller],
      [get_forecast]) are the parameters of the embedding: every theorem
      holds for all of their possible behaviours. *)

From Stdlib Require Import ZArith QArith Lia List Bool String DecimalString.
From Stdlib Require Import SpecFloat Permutation Sorted.
Import ListNotations.

Local Open Scope Z_scope.

(** ** Python exceptions *)

Inductive exn : Type :=
| ValueError
| OverflowError
| TypeError
| IndexError.

Inductive result (A : Type) : Type :=
| Ok (a : A)
| Raise (e : exn).

Arguments Ok {A} a.
Arguments Raise {A} e.

Definition bind {A B : Type} (r : result A) (k : A -> result B) : result B :=
  match r with
  | Ok a => k a
  | Raise e => Raise e
  end.

Notation "x <- r ;; k" := (bind r (fun x => k))
  (at level 61, r at next level, right associativity).

(** ** Binary64 floats *)

Module Float64.

Definition prec : Z := 53.
Definition emax : Z := 1024.

Abbreviation float := spec_float (only parsing).

(** A well-formed binary64 datum: canonical mantissa and exponent. *)
Definition is_binary64 (x : float) : bool := valid_binary prec emax x.

Definition is_nan (x : float) : bool :=
  match x with S754_nan => true | _ => false end.

Definition is_finite (x : float) : bool :=
  match x with
  | S754_zero _ | S754_finite _ _ _ => true
  | _ => false
  end.

(** Python's [a < b], [a > b], [a >= b], [a == b] on floats. *)
Definition flt (a b : float) : bool := SFltb a b.
Definition fgt (a b : float) : bool :=
  match SFcompare a b with Some Gt => true | _ => false end.
Definition fge (a b : float) : bool :=
  match SFcompare a b with Some (Gt | Eq) => true | _ => false end.
Definition fle (a b : float) : bool := SFleb a b.
Definition feq (a b : float) : bool := SFeqb a b.

(** Python's [a / b] for a non-zero divisor. *)
Definition fdiv (a b : float) : float := SFdiv prec emax a b.

(** Literals of the source. *)
Definition zero : float := S754_zero false.
Definition inf : float := S754_infinity false.
(* 0.05 = 0x1.999999999999ap-5 *)
Definition c0_05 : float := S754_finite false 7205759403792794 (-57).
(* 0.5 and 1.0 *)
Definition c0_5 : float := S754_finite false 4503599627370496 (-53).
Definition c1_0 : float := S754_finite false 4503599627370496 (-52).
(** Some more binary64 numbers: 1.5, 2.5, -0.5, -2.5, 0.4 and 3.0. *)
Definition f1_5 : float := S754_finite false 6755399441055744 (-52).
Definition f2_5 : float := S754_finite false 5629499534213120 (-51).
Definition fm0_5 : float := S754_finite true 4503599627370496 (-53).
Definition fm2_5 : float := S754_finite true 5629499534213120 (-51).
Definition f0_4 : float := S754_finite false 7205759403792794 (-54).
Definition f3_0 : float := S754_finite false 6755399441055744 (-51).

(** The exact value of a finite float, as a rational. *)
Definition signed (s : bool) (m : positive) : Z :=
  if s then Zneg m else Zpos m.

Definition F2Q (x : float) : Q :=
  match x with
  | S754_finite s m e =>
      match e with
      | Zneg p => signed s m # Pos.pow 2 p
      | _ => inject_Z (signed s m * 2 ^ e)
      end
  | _ => 0%Q
  end.

(** The same value scaled by [2^1074]: an integer for every binary64
    number, whose exponents are at least [-1074]. *)
Definition F2Z (x : float) : Z :=
  match x with
  | S754_finite s m e => signed s m * 2 ^ (e + 1074)
  | _ => 0
  end.

(** The order of [SFcompare] on the numbers (all floats but NaN) is the
    lexicographic order of these keys: class and sign, then exponent,
    then mantissa. *)
Definition key (x : float) : Z * Z * Z :=
  match x with
  | S754_infinity true => (-2, 0, 0)
  | S754_finite true m e => (-1, - e, Zneg m)
  | S754_finite false m e => (1, e, Zpos m)
  | S754_infinity false => (2, 0, 0)
  | _ => (0, 0, 0)
  end.

Definition lex3 (a b : Z * Z * Z) : comparison :=
  let '(a1, a2, a3) := a in
  let '(b1, b2, b3) := b in
  match a1 ?= b1 with
  | Eq => match a2 ?= b2 with Eq => a3 ?= b3 | c => c end
  | c => c
  end.

End Float64.

Import Float64.

(** ** [round] and the projection to counts *)

(** Round a rational to the nearest integer, ties to the even one. *)
Definition round_half_even (q : Q) : Z :=
  let n := Qnum q in
  let d := Zpos (Qden q) in
  let f := n / d in
  match 2 * (n mod d) ?= d with
  | Lt => f
  | Gt => f + 1
  | Eq => if Z.even f then f else f + 1
  end.

(** [round] of a finite float, as an integer. *)
Definition rnd (x : float) : Z := round_half_even (F2Q x).

(** Python's [round(x)] on a float: the nearest integer, ties to even;
    [ValueError] on NaN and [OverflowError] on an infinity. *)
Definition py_round (x : float) : result Z :=
  match x with
  | S754_nan => Raise ValueError
  | S754_infinity _ => Raise OverflowError
  | _ => Ok (rnd x)
  end.

(** Python's builtins [min(a, b)] and [max(a, b)]: the first argument is
    kept unless the second is strictly smaller (resp. larger). *)
Definition py_min (a b : float) : float := if flt b a then b else a.
Definition py_max (a b : float) : float := if fgt b a then b else a.

(** [max(0, n)] on integers. *)
Definition clamp0 (n : Z) : Z := Z.max 0 n.

Record forecast_ints : Type := mkForecast {
  y_hat : Z;
  lower : Z;
  upper : Z
}.

(** Lines 127-134 of [main]: raw mean and raw interval bounds to counts. *)
Definition project (y_hat_raw conf0 conf1 : float) : result forecast_ints :=
  let lower_raw := py_min conf0 conf1 in
  let upper_raw := py_max conf0 conf1 in
  yh <- py_round y_hat_raw ;;
  lo <- py_round lower_raw ;;
  up <- py_round upper_raw ;;
  Ok (mkForecast (clamp0 yh) (clamp0 lo) (clamp0 up)).

(** The projection in the order the specification words it: round each,
    clamp each at zero, then order the two bounds as (min, max). *)
Definition project_spec (y_hat_raw conf0 conf1 : float) : result forecast_ints :=
  yh <- py_round y_hat_raw ;;
  a <- py_round conf0 ;;
  b <- py_round conf1 ;;
  Ok (mkForecast (clamp0 yh)
                 (Z.min (clamp0 a) (clamp0 b))
                 (Z.max (clamp0 a) (clamp0 b))).

(** ** Order search: [auto_arimax] *)

(** An order candidate [(p, d, q)]. *)
Definition order : Type := (Z * Z * Z)%type.

Definition p_vals : list Z := [0; 1; 2; 3].   (* range(4) *)
Definition d_vals : list Z := [0; 1].         (* (0, 1)   *)
Definition q_vals : list Z := [0; 1; 2; 3].   (* range(4) *)

(** The candidates in the order the three nested loops visit them. *)
Definition grid : list order :=
  flat_map (fun p => flat_map (fun d => map (fun q => (p, d, q)) q_vals) d_vals)
           p_vals.

Section Search.

(** [R] is the type of a statsmodels results object. [fit o] is
    [SARIMAX(y, exog=ex, order=o, ...).fit(disp=False)] followed by the
    read of [r.aic], either of which may raise; [aic r] is the value
    read. *)
Context {R : Type}.
Variable fit : order -> result R.
Variable aic : R -> float.

(** The tuple [best]: [(order or None, score, results or None)]. *)
Definition best_t : Type := (option order * float * option R)%type.

Definition best_init : best_t := (None, inf, None).

(** The body of the innermost loop: a [try] around fit and comparison,
    [except Exception: continue]. *)
Definition try_candidate (best : best_t) (o : order) : best_t :=
  match fit o with
  | Ok r => if flt (aic r) (snd (fst best))
            then (Some o, aic r, Some r)
            else best
  | Raise _ => best
  end.

Definition auto_arimax : best_t :=
  fold_left (fun best p =>
    fold_left (fun best d =>
      fold_left (fun best q => try_candidate best (p, d, q)) q_vals best)
      d_vals best)
    p_vals best_init.

(** The search over an arbitrary list of candidates. *)
Definition search (l : list order) : best_t :=
  fold_left try_candidate l best_init.

(** What holds of [best] once the candidates [seen] have been tried. *)
Definition search_inv (seen : list order) (best : best_t) : Prop :=
  match best with
  | (None, a, None) =>
      a = inf /\
      forall c rc, In c seen -> fit c = Ok rc -> flt (aic rc) inf = false
  | (Some o, a, Some r) =>
      fit o = Ok r /\ a = aic r /\ flt a inf = true /\
      exists l1 l2,
        seen = l1 ++ o :: l2 /\
        (forall c rc, In c l1 -> fit c = Ok rc ->
                      is_nan (aic rc) = true \/ flt a (aic rc) = true) /\
        (forall c rc, In c l2 -> fit c = Ok rc -> flt (aic rc) a = false)
  | _ => False
  end.

End Search.

(** Two fit oracles to run the search on: the scores are the results
    themselves. In [fit_nan] one candidate scores 1.0 and another NaN; in
    [fit_tie] the least score 1.5 is reached twice. *)
Definition fit_nan (o : order) : result float :=
  match o with
  | (0, 0, 0) => Ok c1_0
  | (0, 0, 1) => Ok S754_nan
  | _ => Raise ValueError
  end.

Definition fit_tie (o : order) : result float :=
  match o with
  | (0, 0, 1) => Ok f2_5
  | (1, 0, 0) => Ok f1_5
  | (2, 1, 3) => Ok f1_5
  | (3, 0, 0) => Ok S754_nan
  | _ => Raise ValueError
  end.

Definition aic_id (r : float) : float := r.

(** ** Interpretation of the selected order: [dynamic_pdq_interpretation] *)

Local Open Scope string_scope.

(** [str(n)] for a Python int. *)
Definition str_int (n : Z) : string :=
  NilEmpty.string_of_int (Z.to_int n).

Definition msg_d0_stationary : string :=
  "**d = 0** → la serie appare già **abbastanza stazionaria** (ADF p-value < 0.05).".
Definition msg_d0_handled : string :=
  "**d = 0** → nessuna differenziazione: la stazionarietà sembra gestita da AR/MA o dagli esogeni (ADF p-value ≥ 0.05).".
Definition msg_d_differencing (d : Z) : string :=
  "**d = " ++ str_int d ++ "** → applicata **differenziazione** per attenuare trend/non-stazionarietà (ADF p-value ≥ 0.05).".
Definition msg_d_prefers (d : Z) : string :=
  "**d = " ++ str_int d ++ "** → il modello preferisce differenziare per ottimizzare l’AIC (pur con ADF che suggerisce stazionarietà).".
Definition msg_d_generic (d : Z) : string :=
  "**d = " ++ str_int d ++ "** → grado di differenziazione selezionato per migliorare la stabilità del modello.".

Definition msg_p0 : string :=
  "**p = 0** → il contributo delle osservazioni passate è limitato.".
Definition msg_p_moderate (p : Z) : string :=
  "**p = " ++ str_int p ++ "** → il modello sfrutta **memoria moderata** dal passato.".
Definition msg_p_deep (p : Z) : string :=
  "**p = " ++ str_int p ++ "** → presenza di **memoria più profonda** nelle dipendenze temporali.".

Definition msg_q0 : string :=
  "**q = 0** → il rumore residuo risulta **poco strutturato**.".
Definition msg_q_shocks (q : Z) : string :=
  "**q = " ++ str_int q ++ "** → il modello cattura **shock di breve periodo** nel residuo.".
Definition msg_q_complex (q : Z) : string :=
  "**q = " ++ str_int q ++ "** → il rumore mostra **strutture più complesse**.".

(** The first message, on [d] and the ADF p-value ([None] when the test
    was not available): [if d == 0 and adf_p is not None: ... elif d >= 1
    and adf_p is not None: ... else: ...]. *)
Definition d_message (d : Z) (adf_p : option float) : string :=
  match (d =? 0)%Z, adf_p with
  | true, Some pv =>
      if flt pv c0_05 then msg_d0_stationary else msg_d0_handled
  | _, _ =>
      match (d >=? 1)%Z, adf_p with
      | true, Some pv =>
          if fge pv c0_05 then msg_d_differencing d else msg_d_prefers d
      | _, _ => msg_d_generic d
      end
  end.

Definition p_message (p : Z) : string :=
  if (p =? 0)%Z then msg_p0
  else if ((p =? 1) || (p =? 2))%Z then msg_p_moderate p
  else msg_p_deep p.

Definition q_message (q : Z) : string :=
  if (q =? 0)%Z then msg_q0
  else if ((q =? 1) || (q =? 2))%Z then msg_q_shocks q
  else msg_q_complex q.

Definition dynamic_pdq_interpretation (p d q : Z) (adf_p : option float)
  : list string :=
  [d_message d adf_p; p_message p; q_message q].

(** ** Fit-quality notes: [gentle_fidelity_notes] *)

Definition msg_low_variability : string :=
  "La variabilità naturale della serie è molto bassa: piccoli scostamenti possono pesare relativamente di più.".
Definition msg_contained : string :=
  "Gli scostamenti medi risultano **contenuti** rispetto alla variabilità naturale della serie.".
Definition msg_in_line : string :=
  "Gli scostamenti medi sono **in linea** con la variabilità naturale; il modello cattura buona parte del segnale, pur con rumore fisiologico.".
Definition msg_exceed : string :=
  "Gli scostamenti medi sono **superiori** alla variabilità naturale; può essere utile considerare più dati o ulteriori fattori esplicativi.".
Definition msg_suggestion : string :=
  "Suggerimento: confronta il profilo addestrato con i picchi reali per valutare eventuali ritardi o attenuazioni.".

Definition ratio_message (ratio : float) : string :=
  if flt ratio c0_5 then msg_contained
  else if flt ratio c1_0 then msg_in_line
  else msg_exceed.

(** [y_std is None or y_std == 0 or np.isnan(y_std)] guards the division. *)
Definition gentle_fidelity_notes (rmse : float) (y_std : option float)
  : list string :=
  match y_std with
  | None => [msg_low_variability]
  | Some s =>
      if feq s zero || is_nan s then [msg_low_variability]
      else [ratio_message (fdiv rmse s); msg_suggestion]
  end.

Local Close Scope string_scope.

(** ** Series preparation: [load_cicalino_data] *)

(** A pandas [Timestamp], in nanoseconds; [DAY] is the step of
    frequency ["D"]. *)
Abbreviation timestamp := Z (only parsing).
Definition DAY : Z := 86400000000000.

(** One row of the sheet after [pd.to_datetime(..., errors="coerce")] and
    [pd.to_numeric(..., errors="coerce")]: an unparseable date is [NaT]
    ([None]), a non-numeric cell is NaN. *)
Record table_row : Type := mkRow {
  Date : option timestamp;
  temperature_mean : float;
  relativehumidity_mean : float;
  adult_males : float               (* column "no. of Adult males" *)
}.

(** The three numeric cells of a row. *)
Record obs : Type := mkObs {
  temperature : float;
  humidity : float;
  captures : float
}.

Definition nan_obs : obs := mkObs S754_nan S754_nan S754_nan.

(** A frame indexed by date, a series and the exogenous matrix. *)
Definition frame : Type := list (timestamp * obs).
Definition series : Type := list (timestamp * float).
Definition exog : Type := list (timestamp * (float * float)).

(** [df.dropna(subset=[the four columns])]. *)
Definition dropna (df : list table_row) : frame :=
  flat_map (fun r =>
    match Date r with
    | Some t =>
        if is_nan (temperature_mean r) || is_nan (relativehumidity_mean r)
           || is_nan (adult_males r)
        then []
        else [(t, mkObs (temperature_mean r) (relativehumidity_mean r)
                        (adult_males r))]
    | None => []
    end) df.

(** [df.sort_values("Date")]. *)
Fixpoint insert_row (r : timestamp * obs) (l : frame) : frame :=
  match l with
  | [] => [r]
  | x :: tl => if fst r <? fst x then r :: x :: tl else x :: insert_row r tl
  end.

Definition sort_values (df : frame) : frame := fold_right insert_row [] df.

Definition index_of {A : Type} (df : list (timestamp * A)) : list timestamp :=
  map fst df.

(** [index.min()] and [index.max()]; [None] on an empty index. *)
Definition index_min (ix : list timestamp) : option timestamp :=
  match ix with
  | [] => None
  | t :: ts => Some (fold_left Z.min ts t)
  end.

Definition index_max (ix : list timestamp) : option timestamp :=
  match ix with
  | [] => None
  | t :: ts => Some (fold_left Z.max ts t)
  end.

(** [pd.date_range(lo, hi, freq="D")]: [lo], [lo + 1 day], ... while not
    after [hi]. *)
Definition date_range (lo hi : timestamp) : list timestamp :=
  map (fun k => lo + Z.of_nat k * DAY) (seq 0 (Z.to_nat ((hi - lo) / DAY) + 1)).

Fixpoint has_duplicates (ix : list timestamp) : bool :=
  match ix with
  | [] => false
  | t :: ts => existsb (Z.eqb t) ts || has_duplicates ts
  end.

Fixpoint loc (t : timestamp) (df : frame) : obs :=
  match df with
  | [] => nan_obs
  | (t', o) :: tl => if t =? t' then o else loc t tl
  end.

(** [df.set_index("Date").asfreq("D")]: reindex on the daily range from
    the first to the last date; dates absent from the frame get a row of
    NaN, rows off the range are dropped; pandas refuses to reindex an
    index with duplicate labels. *)
Definition asfreq_D (df : frame) : result frame :=
  match index_min (index_of df), index_max (index_of df) with
  | Some lo, Some hi =>
      if has_duplicates (index_of df) then Raise ValueError
      else Ok (map (fun t => (t, loc t df)) (date_range lo hi))
  | _, _ => Ok []
  end.

(** A daily index: each date is one day after the one before. *)
Fixpoint daily (ix : list timestamp) : Prop :=
  match ix with
  | t :: ((t' :: _) as tl) => t' = t + DAY /\ daily tl
  | _ => True
  end.

Definition finite_obs (o : obs) : Prop :=
  is_finite (temperature o) = true /\ is_finite (humidity o) = true /\
  is_finite (captures o) = true.

(** A cell after [dropna] and [asfreq]: missing, or a finite number. *)
Definition nan_or_finite (x : float) : Prop :=
  is_nan x = true \/ is_finite x = true.

Section Interpolation.

(** [lerp a b i n]: the value linear interpolation gives [i] steps after
    a valid value [a] when the next valid value [b] is [n] steps after
    [a] (numpy's [interp], in floating point). *)
Variable lerp : float -> float -> Z -> Z -> float.

(** Distance to, and value of, the first valid cell of [l], counted
    from the position just before [l]. *)
Fixpoint next_valid (l : list float) : option (Z * float) :=
  match l with
  | [] => None
  | x :: tl =>
      if is_nan x
      then match next_valid tl with
           | Some (k, v) => Some (k + 1, v)
           | None => None
           end
      else Some (1, x)
  end.

(** [prev] is the last valid cell already passed and its distance to
    the current position. A gap between two valid cells is filled by
    interpolation, a gap at an edge by the nearest valid cell. *)
Fixpoint interpolate_from (prev : option (Z * float)) (l : list float)
  : list float :=
  match l with
  | [] => []
  | x :: tl =>
      if is_nan x then
        let v := match prev, next_valid tl with
                 | Some (i, a), Some (k, b) => lerp a b i (i + k)
                 | Some (_, a), None => a
                 | None, Some (_, b) => b
                 | None, None => x
                 end in
        v :: interpolate_from
               (match prev with Some (i, a) => Some (i + 1, a) | None => None end)
               tl
      else x :: interpolate_from (Some (1, x)) tl
  end.

(** [column.interpolate(limit_direction="both")]. *)
Definition interpolate (l : list float) : list float :=
  interpolate_from None l.

Definition load_cicalino_data (table : list table_row)
  : result (series * exog) :=
  df <- asfreq_D (sort_values (dropna table)) ;;
  let ix := index_of df in
  let t := interpolate (map (fun r => temperature (snd r)) df) in
  let h := interpolate (map (fun r => humidity (snd r)) df) in
  let c := interpolate (map (fun r => captures (snd r)) df) in
  Ok (combine ix c, combine ix (combine t h)).

End Interpolation.

(** An interpolation oracle that repeats the value on the left, and two
    small sheets: one with the same date twice, one with a gap of two
    days. *)
Definition lerp_left (a b : float) (i n : Z) : float := a.

Definition dup_table : list table_row :=
  [ mkRow (Some 0) c1_0 c0_5 f3_0; mkRow (Some 0) f1_5 c0_5 c1_0 ].

Definition gap_table : list table_row :=
  [ mkRow (Some (3 * DAY)) f1_5 c0_5 f3_0;
    mkRow None c1_0 c1_0 c1_0;
    mkRow (Some 0) c1_0 c0_5 S754_nan;
    mkRow (Some 0) c1_0 c0_5 c1_0 ].

(** ** The page: [main] *)

(** The values shown by [st.metric]. *)
Inductive metric_value : Type :=
| IntValue (n : Z)                     (* f"{y_hat}" *)
| IntervalValue (lo up : Z)            (* f"[{lower}, {upper}]" *)
| FloatValue (x : float).              (* f"{mae:.3f}" and the like *)

(** What the page writes, in order. *)
Inductive event : Type :=
| Title (s : string)
| Caption (s : string)
| WriteADF (adf_stat adf_p : float)
| Info (s : string)
| Error (s : string)
| PlotlyChart (y_tail fitted_tail : series) (next_day : option timestamp)
              (y_hat lower upper : Z)
| Metric (label : string) (v : metric_value)
| Markdown (s : string)
| Subheader (s : string).

(** A run of the script: it ends, is halted by [st.stop()], or dies on an
    uncaught exception. *)
Inductive outcome (A : Type) : Type :=
| Done (a : A) (log : list event)
| Stopped (log : list event)
| Crashed (e : exn) (log : list event).

Arguments Done {A} a log.
Arguments Stopped {A} log.
Arguments Crashed {A} e log.

Definition ui (A : Type) : Type := list event -> outcome A.

Definition ret {A : Type} (a : A) : ui A := fun log => Done a log.

Definition ubind {A B : Type} (m : ui A) (k : A -> ui B) : ui B :=
  fun log =>
    match m log with
    | Done a log' => k a log'
    | Stopped log' => Stopped log'
    | Crashed e log' => Crashed e log'
    end.

Definition emit (e : event) : ui unit := fun log => Done tt (log ++ [e]).

Definition st_stop {A : Type} : ui A := fun log => Stopped log.

Definition lift {A : Type} (r : result A) : ui A :=
  fun log =>
    match r with
    | Ok a => Done a log
    | Raise e => Crashed e log
    end.

Notation "x <~ m ;; k" := (ubind m (fun x => k))
  (at level 61, m at next level, right associativity).
Notation "' pat <~ m ;; k" := (ubind m (fun x => match x with pat => k end))
  (at level 61, pat pattern, m at next level, right associativity).
Notation "m ;;; k" := (ubind m (fun _ => k))
  (at level 61, right associativity).

Fixpoint emit_all (l : list event) : ui unit :=
  match l with
  | [] => ret tt
  | e :: tl => emit e ;;; emit_all tl
  end.

(** [(p, d, q), aic, res = best]: unpacking [None] as a triple is a
    [TypeError]. *)
Definition unpack_best {R : Type} (best : option order * float * option R)
  : result (Z * Z * Z * float * option R) :=
  match best with
  | (Some (p, d, q), a, res) => Ok (p, d, q, a, res)
  | (None, _, _) => Raise TypeError
  end.

(** [y.index.max() + timedelta(days=1)]; [None] is [NaT]. *)
Definition next_day {A : Type} (y : list (timestamp * A)) : option timestamp :=
  match index_max (index_of y) with
  | Some last_day => Some (last_day + DAY)
  | None => None
  end.

(** [pd.DataFrame([ex.iloc[-1]], index=[next_day])]: [iloc[-1]] on an
    empty frame is an [IndexError]. *)
Definition ex_future (y : series) (ex : exog)
  : result (option timestamp * (float * float)) :=
  match rev ex with
  | [] => Raise IndexError
  | last_row :: _ => Ok (next_day y, snd last_row)
  end.

(** [s.iloc[-n:]]. *)
Definition tail {A : Type} (n : nat) (l : list A) : list A :=
  skipn (List.length l - n) l.

Fixpoint loc_series (t : timestamp) (s : series) : float :=
  match s with
  | [] => S754_nan
  | (t', v) :: tl => if t =? t' then v else loc_series t tl
  end.

(** [s.reindex(ix)]. *)
Definition reindex (s : series) (ix : list timestamp) : series :=
  map (fun t => (t, loc_series t s)) ix.

(** [pd.DataFrame({"y": y}).join(fitted.rename("yhat"), how="inner").dropna()]. *)
Definition df_eval (y fitted : series) : list (float * float) :=
  flat_map (fun r =>
    if existsb (Z.eqb (fst r)) (index_of fitted) then
      let yhat := loc_series (fst r) fitted in
      if is_nan (snd r) || is_nan yhat then [] else [(snd r, yhat)]
    else []) y.

Local Open Scope string_scope.

Definition title_text : string :=
  "📈 Forecast (ARIMAX Automatico – Cicalino Data)".
Definition caption_text : string :=
  "Selezione automatica di (p,d,q) via AIC. Previsione **+1 giorno** con esogene in **persistenza**. Previsioni e intervalli sono mostrati come **interi non negativi**.".
Definition adf_caption_text : string :=
  "p-value < 0.05 → indicazione di stazionarietà (regola pratica).".
Definition adf_unavailable_text : string :=
  "Test ADF non disponibile su questa serie (lunghezza/qualità dati).".
Definition no_model_text : string :=
  "Nessun modello ARIMAX valido trovato.".
Definition final_caption_text : string :=
  "Nota: per il giorno successivo le esogene (temperatura/umidità) sono assunte uguali all’ultimo giorno osservato (persistenza). Forecast e intervalli sono mostrati come **interi non negativi**; la diagnostica è pensata per una lettura **morbida** della qualità di adattamento.".

Definition label_forecast : string := "Previsione giorno +1 (int)".
Definition label_interval : string := "Intervallo 95% (int)".
Definition metrics_heading : string := "**Lettura delle metriche**".
Definition interpretation_heading : string := "🧠 Interpretazione del modello".

(** [f"- {msg}"]. *)
Definition bullet (msg : string) : string := "- " ++ msg.

Local Close Scope string_scope.

Section Page.

Context {R : Type}.

(** numpy's interpolation, see [Interpolation]. *)
Variable lerp : float -> float -> Z -> Z -> float.
(** [adfuller(y)]: the statistic and the p-value, or an exception. *)
Variable adfuller : series -> result (float * float).
(** [SARIMAX(y, exog=ex, order=o, ...).fit(disp=False)] and [r.aic]. *)
Variable fit : series -> exog -> order -> result R.
Variable aic : R -> float.
(** [res.get_forecast(steps=1, exog=ex_future)]: the predicted mean and
    the two columns of [conf_int(alpha=0.05)]. *)
Variable get_forecast :
  R -> option timestamp * (float * float) -> result (float * float * float).
Variable fittedvalues : R -> series.
(** [np.mean(np.abs(y - yhat))], [np.sqrt(np.mean((y - yhat)**2))] and
    the sample standard deviation [y.std()]. *)
Variable mean_abs_error : list (float * float) -> float.
Variable root_mean_sq_error : list (float * float) -> float.
Variable sample_std : list float -> float.

Definition main (table : list table_row) : ui unit :=
  emit (Title title_text) ;;;
  emit (Caption caption_text) ;;;
  (* 1) data *)
  ' (y, ex) <~ lift (load_cicalino_data lerp table) ;;
  (* 2) informative ADF test *)
  adf_p <~ match adfuller y with
           | Ok (adf_stat, adf_p) =>
               emit (WriteADF adf_stat adf_p) ;;;
               emit (Caption adf_caption_text) ;;;
               ret (Some adf_p)
           | Raise _ =>
               emit (Info adf_unavailable_text) ;;;
               ret None
           end ;;
  (* 3) order search *)
  ' (p, d, q, a, res) <~ lift (unpack_best (auto_arimax (fit y ex) aic)) ;;
  r <~ match res with
       | None => emit (Error no_model_text) ;;; st_stop
       | Some r => ret r
       end ;;
  (* 4) forecast +1 with the exogenous row in persistence *)
  exf <~ lift (ex_future y ex) ;;
  ' (y_hat_raw, conf0, conf1) <~ lift (get_forecast r exf) ;;
  fc <~ lift (project y_hat_raw conf0 conf1) ;;
  (* 5) chart of the last 30 days and the forecast *)
  let y_tail := tail 30 y in
  let fitted_tail := reindex (fittedvalues r) (index_of y_tail) in
  emit (PlotlyChart y_tail fitted_tail (fst exf)
                    (y_hat fc) (lower fc) (upper fc)) ;;;
  (* 6) metrics *)
  emit (Metric label_forecast (IntValue (y_hat fc))) ;;;
  emit (Metric label_interval (IntervalValue (lower fc) (upper fc))) ;;;
  (* 7) diagnostics *)
  let ev := df_eval y (fittedvalues r) in
  let mae := mean_abs_error ev in
  let rmse := root_mean_sq_error ev in
  let sd := sample_std (map fst ev) in
  let y_std := if fgt sd zero then Some sd else None in
  emit (Metric "MAE"%string (FloatValue mae)) ;;;
  emit (Metric "RMSE"%string (FloatValue rmse)) ;;;
  emit (Metric "AIC"%string (FloatValue a)) ;;;
  emit (Markdown metrics_heading) ;;;
  emit_all (map (fun msg => Markdown (bullet msg))
                (gentle_fidelity_notes rmse y_std)) ;;;
  (* 8) interpretation of (p,d,q) and of the ADF test *)
  emit (Subheader interpretation_heading) ;;;
  emit_all (map (fun msg => Markdown (bullet msg))
                (dynamic_pdq_interpretation p d q adf_p)) ;;;
  emit (Caption final_caption_text).

End Page.

(** What step 2 writes and what it leaves in [adf_p], by the result of
    [adfuller]. *)
Definition adf_events (r : result (float * float)) : list event :=
  match r with
  | Ok (adf_stat, adf_p) => [WriteADF adf_stat adf_p; Caption adf_caption_text]
  | Raise _ => [Info adf_unavailable_text]
  end.

Definition adf_p_of (r : result (float * float)) : option float :=
  match r with
  | Ok (_, adf_p) => Some adf_p
  | Raise _ => None
  end.

(** The page without what it says of the ADF test: the statistic line and
    the caption that follows it, or the notice that the test is
    unavailable, and the first bullet under the interpretation heading (the
    one on [d], worded after the p-value). *)
Fixpoint erase_adf (skip : bool) (log : list event) : list event :=
  match log with
  | [] => []
  | e :: tl =>
      if skip then erase_adf false tl
      else match e with
           | WriteADF _ _ => erase_adf true tl
           | Info _ => erase_adf false tl
           | Subheader _ => e :: erase_adf true tl
           | _ => e :: erase_adf false tl
           end
  end.

Definition page_view {A : Type} (o : outcome A) : outcome A :=
  match o with
  | Done a log => Done a (erase_adf false log)
  | Stopped log => Stopped (erase_adf false log)
  | Crashed e log => Crashed e (erase_adf false log)
  end.

(** ** Observations on a run of the page *)

Definition log_of {A : Type} (o : outcome A) : list event :=
  match o with
  | Done _ log | Stopped log | Crashed _ log => log
  end.

Definition is_stopped {A : Type} (o : outcome A) : bool :=
  match o with Stopped _ => true | _ => false end.

(** [st.error(...)] *)
Definition is_error_event (e : event) : bool :=
  match e with Error _ => true | _ => false end.

(** The chart and the [st.metric] cards of steps 5 to 7. *)
Definition is_forecast_event (e : event) : bool :=
  match e with PlotlyChart _ _ _ _ _ _ | Metric _ _ => true | _ => false end.

(** A sheet none of whose rows survives [dropna]. *)
Definition blank_table : list table_row :=
  [ mkRow None c1_0 c0_5 f3_0; mkRow (Some 0) S754_nan c0_5 c1_0 ].

(** * Properties *)

(** ** The order of binary64 floats *)

Module FloatOrder.

Lemma SFcompare_key (x y : float) :
  is_nan x = false -> is_nan y = false ->
  SFcompare x y = Some (lex3 (key x) (key y)).
Proof.
  destruct x as [sx|sx| |sx mx ex], y as [sy|sy| |sy my ey];
    try discriminate; intros _ _;
    try (destruct sx; reflexivity); try (destruct sy; reflexivity);
    try (destruct sx, sy; reflexivity).
  destruct sx, sy; try reflexivity; unfold SFcompare, key, lex3.
  - change (-1 ?= -1) with Eq. cbv iota.
    rewrite Z.compare_opp, (Z.compare_antisym ex ey).
    destruct (ex ?= ey); reflexivity.
Qed.

Lemma SFcompare_nan (x y : float) :
  is_nan x = true \/ is_nan y = true -> SFcompare x y = None.
Proof.
  destruct x, y; cbn; intuition discriminate.
Qed.

Lemma SFcompare_some (x y : float) (c : comparison) :
  SFcompare x y = Some c -> is_nan x = false /\ is_nan y = false.
Proof.
  destruct x, y; cbn; intuition discriminate.
Qed.

Ltac lex3_solve :=
  unfold lex3;
  repeat match goal with
         | k : (Z * Z * Z)%type |- _ => destruct k as [[? ?] ?]
         end;
  repeat match goal with
         | |- context [?a ?= ?b] => destruct (Z.compare_spec a b)
         | H : context [?a ?= ?b] |- _ => destruct (Z.compare_spec a b)
         end;
  cbn in *; try congruence; try lia.

Lemma lex3_antisym (a b : Z * Z * Z) : lex3 b a = CompOpp (lex3 a b).
Proof. lex3_solve. Qed.

Lemma lex3_lt_trans (a b c : Z * Z * Z) :
  lex3 a b = Lt -> lex3 b c <> Gt -> lex3 a c = Lt.
Proof. intros H1 H2. revert H1 H2. lex3_solve. Qed.

Lemma lex3_le_lt_trans (a b c : Z * Z * Z) :
  lex3 a b <> Gt -> lex3 b c = Lt -> lex3 a c = Lt.
Proof. intros H1 H2. revert H1 H2. lex3_solve. Qed.

Lemma lex3_le_trans (a b c : Z * Z * Z) :
  lex3 a b <> Gt -> lex3 b c <> Gt -> lex3 a c <> Gt.
Proof. intros H1 H2. revert H1 H2. lex3_solve. Qed.

Lemma SFcompare_antisym (x y : float) :
  SFcompare y x = option_map CompOpp (SFcompare x y).
Proof.
  destruct (is_nan x) eqn:Hx; [|destruct (is_nan y) eqn:Hy].
  - rewrite !SFcompare_nan; auto.
  - rewrite !SFcompare_nan; auto.
  - rewrite !SFcompare_key by assumption. cbn. f_equal. apply lex3_antisym.
Qed.

(** [b > a] is [a < b], and [a >= b] is [b <= a]. *)
Lemma fgt_flt (a b : float) : fgt b a = flt a b.
Proof.
  unfold fgt, flt, SFltb. rewrite (SFcompare_antisym a b).
  destruct (SFcompare a b) as [[]|]; reflexivity.
Qed.

Lemma fge_fle (a b : float) : fge a b = fle b a.
Proof.
  unfold fge, fle, SFleb. rewrite (SFcompare_antisym b a).
  destruct (SFcompare b a) as [[]|]; reflexivity.
Qed.

Lemma flt_not_nan (a b : float) :
  flt a b = true -> is_nan a = false /\ is_nan b = false.
Proof.
  unfold flt, SFltb. destruct (SFcompare a b) eqn:E; [|discriminate].
  intros _. eapply SFcompare_some; eauto.
Qed.

Lemma fle_not_nan (a b : float) :
  fle a b = true -> is_nan a = false /\ is_nan b = false.
Proof.
  unfold fle, SFleb. destruct (SFcompare a b) eqn:E; [|discriminate].
  intros _. eapply SFcompare_some; eauto.
Qed.

Lemma flt_fle (a b : float) : flt a b = true -> fle a b = true.
Proof.
  unfold flt, fle, SFltb, SFleb.
  destruct (SFcompare a b) as [[]|]; congruence.
Qed.

(** Two numbers are comparable: not [a < b] means [b <= a]. *)
Lemma not_flt_fle (a b : float) :
  is_nan a = false -> is_nan b = false -> flt a b = false -> fle b a = true.
Proof.
  intros Ha Hb. unfold flt, fle, SFltb, SFleb.
  rewrite (SFcompare_antisym a b), (SFcompare_key a b Ha Hb). cbn.
  destruct (lex3 (key a) (key b)); cbn; congruence.
Qed.

Lemma fle_not_flt (a b : float) : fle a b = true -> flt b a = false.
Proof.
  unfold flt, fle, SFltb, SFleb.
  rewrite (SFcompare_antisym a b).
  destruct (SFcompare a b) as [[]|]; cbn; congruence.
Qed.

Lemma flt_bool_key (a b : float) :
  flt a b = true <->
  is_nan a = false /\ is_nan b = false /\ lex3 (key a) (key b) = Lt.
Proof.
  split.
  - intros H. destruct (flt_not_nan _ _ H) as [Ha Hb].
    repeat split; try assumption.
    unfold flt, SFltb in H. rewrite (SFcompare_key a b Ha Hb) in H.
    destruct (lex3 (key a) (key b)); congruence.
  - intros (Ha & Hb & H). unfold flt, SFltb.
    rewrite (SFcompare_key a b Ha Hb), H. reflexivity.
Qed.

Lemma fle_bool_key (a b : float) :
  fle a b = true <->
  is_nan a = false /\ is_nan b = false /\ lex3 (key a) (key b) <> Gt.
Proof.
  split.
  - intros H. destruct (fle_not_nan _ _ H) as [Ha Hb].
    repeat split; try assumption.
    unfold fle, SFleb in H. rewrite (SFcompare_key a b Ha Hb) in H.
    destruct (lex3 (key a) (key b)); congruence.
  - intros (Ha & Hb & H). unfold fle, SFleb.
    rewrite (SFcompare_key a b Ha Hb).
    destruct (lex3 (key a) (key b)); congruence.
Qed.

Lemma flt_fle_trans (a b c : float) :
  flt a b = true -> fle b c = true -> flt a c = true.
Proof.
  rewrite !flt_bool_key, fle_bool_key.
  intros (Ha & Hb & H1) (_ & Hc & H2). repeat split; try assumption.
  eapply lex3_lt_trans; eauto.
Qed.

Lemma fle_flt_trans (a b c : float) :
  fle a b = true -> flt b c = true -> flt a c = true.
Proof.
  rewrite !flt_bool_key, fle_bool_key.
  intros (Ha & Hb & H1) (_ & Hc & H2). repeat split; try assumption.
  eapply lex3_le_lt_trans; eauto.
Qed.

Lemma fle_trans (a b c : float) :
  fle a b = true -> fle b c = true -> fle a c = true.
Proof.
  rewrite !fle_bool_key.
  intros (Ha & Hb & H1) (_ & Hc & H2). repeat split; try assumption.
  eapply lex3_le_trans; eauto.
Qed.

Lemma fle_refl (a : float) : is_nan a = false -> fle a a = true.
Proof.
  intros Ha. apply fle_bool_key. repeat split; try assumption.
  generalize (key a). intros k. lex3_solve.
Qed.

End FloatOrder.

(** ** The value of a well-formed float *)

Module FloatValue.

Lemma digits2_pos_bounds (m : positive) :
  2 ^ (Zpos (digits2_pos m) - 1) <= Zpos m < 2 ^ Zpos (digits2_pos m).
Proof.
  induction m as [m IH|m IH|]; cbn [digits2_pos].
  - rewrite Pos2Z.inj_succ, Z.pow_succ_r by lia.
    replace (Z.succ (Zpos (digits2_pos m)) - 1)
      with (Z.succ (Zpos (digits2_pos m) - 1)) by lia.
    rewrite Z.pow_succ_r by lia. lia.
  - rewrite Pos2Z.inj_succ, Z.pow_succ_r by lia.
    replace (Z.succ (Zpos (digits2_pos m)) - 1)
      with (Z.succ (Zpos (digits2_pos m) - 1)) by lia.
    rewrite Z.pow_succ_r by lia. lia.
  - cbn. lia.
Qed.

(** A canonical binary64 mantissa has at most 53 bits, and exactly 53
    above the least exponent. *)
Lemma bounded_spec (m : positive) (e : Z) :
  bounded prec emax m e = true ->
  -1074 <= e <= 971 /\ Zpos m < 2 ^ 53 /\ (-1074 < e -> 2 ^ 52 <= Zpos m).
Proof.
  unfold bounded, canonical_mantissa, fexp, emin, prec, emax.
  intros H. apply andb_prop in H. destruct H as [H1 H2].
  apply Z.eqb_eq in H1. apply Z.leb_le in H2.
  pose proof (digits2_pos_bounds m) as [Hlo Hhi].
  set (dg := Zpos (digits2_pos m)) in *.
  assert (Hd : 0 < dg) by (unfold dg; lia).
  split; [lia|]. split.
  - assert (dg <= 53) by lia.
    assert (2 ^ dg <= 2 ^ 53) by (apply Z.pow_le_mono_r; lia). lia.
  - intros He. assert (dg = 53) by lia.
    replace (dg - 1) with 52 in Hlo by lia. exact Hlo.
Qed.

Lemma scaled_lt (m1 m2 k1 k2 : Z) :
  0 < m1 < 2 ^ 53 -> 2 ^ 52 <= m2 -> 0 <= k1 < k2 ->
  m1 * 2 ^ k1 < m2 * 2 ^ k2.
Proof.
  intros H1 H2 Hk.
  replace k2 with (k1 + (k2 - k1)) by lia.
  rewrite Z.pow_add_r by lia.
  assert (Hp : 0 < 2 ^ k1) by (apply Z.pow_pos_nonneg; lia).
  assert (Hq : 2 ^ 1 <= 2 ^ (k2 - k1)) by (apply Z.pow_le_mono_r; lia).
  change (2 ^ 1) with 2 in Hq.
  change (2 ^ 53) with (2 ^ 52 * 2) in H1.
  remember (2 ^ k1) as A. remember (2 ^ (k2 - k1)) as B.
  remember (2 ^ 52) as C.
  assert (HC : 0 < C) by (subst C; reflexivity).
  assert (S1 : m1 * A < C * 2 * A) by (apply Z.mul_lt_mono_pos_r; lia).
  assert (S2 : C * 2 <= m2 * B) by (apply Z.mul_le_mono_nonneg; lia).
  assert (S3 : C * 2 * A <= m2 * B * A) by (apply Z.mul_le_mono_nonneg_r; lia).
  lia.
Qed.

Lemma signed_scaled_cases (s : bool) (m : positive) (P : Z) :
  0 < P ->
  exists n, 0 < n /\ Zpos m = n /\
            signed s m * P = if s then - (n * P) else n * P.
Proof.
  intros HP. exists (Zpos m). split; [lia|]. split; [reflexivity|].
  destruct s; cbn [signed]; [|reflexivity].
  rewrite <- Pos2Z.opp_pos. lia.
Qed.

(** On well-formed finite floats [SFcompare] compares the values. *)
Lemma SFcompare_F2Z (x y : float) :
  is_binary64 x = true -> is_binary64 y = true ->
  is_finite x = true -> is_finite y = true ->
  SFcompare x y = Some (F2Z x ?= F2Z y).
Proof.
  destruct x as [sx|sx| |sx mx ex], y as [sy|sy| |sy my ey];
    try discriminate; unfold is_binary64; cbn [valid_binary F2Z SFcompare];
    intros Hx Hy _ _.
  - reflexivity.
  - apply bounded_spec in Hy. destruct Hy as (He & _ & _).
    assert (P : 0 < 2 ^ (ey + 1074)) by (apply Z.pow_pos_nonneg; lia).
    destruct (signed_scaled_cases sy my _ P) as (n & Hn & _ & ->).
    f_equal. symmetry. destruct sy.
    + apply Z.compare_gt_iff. nia.
    + apply Z.compare_lt_iff. nia.
  - apply bounded_spec in Hx. destruct Hx as (He & _ & _).
    assert (P : 0 < 2 ^ (ex + 1074)) by (apply Z.pow_pos_nonneg; lia).
    destruct (signed_scaled_cases sx mx _ P) as (n & Hn & _ & ->).
    f_equal. symmetry. destruct sx.
    + apply Z.compare_lt_iff. nia.
    + apply Z.compare_gt_iff. nia.
  - apply bounded_spec in Hx, Hy.
    destruct Hx as (Hex & Hmx & Hnx), Hy as (Hey & Hmy & Hny).
    assert (Px : 0 < 2 ^ (ex + 1074)) by (apply Z.pow_pos_nonneg; lia).
    assert (Py : 0 < 2 ^ (ey + 1074)) by (apply Z.pow_pos_nonneg; lia).
    destruct (signed_scaled_cases sx mx _ Px) as (nx & Hnx0 & Ex & ->).
    destruct (signed_scaled_cases sy my _ Py) as (ny & Hny0 & Ey & ->).
    assert (Hcmp : Pos.compare_cont Eq mx my = (nx ?= ny)).
    { subst nx ny. reflexivity. }
    rewrite Hcmp. rewrite Ex in Hmx, Hnx. rewrite Ey in Hmy, Hny.
    clear Hcmp Ex Ey.
    pose proof (scaled_lt nx ny (ex + 1074) (ey + 1074)) as Lxy.
    pose proof (scaled_lt ny nx (ey + 1074) (ex + 1074)) as Lyx.
    f_equal. symmetry.
    destruct sx, sy.
    + destruct (Z.compare_spec ex ey) as [E|E|E].
      * subst ey. destruct (Z.compare_spec nx ny) as [M|M|M]; cbn [CompOpp].
        -- subst. apply Z.compare_refl.
        -- apply Z.compare_gt_iff. nia.
        -- apply Z.compare_lt_iff. nia.
      * apply Z.compare_gt_iff.
        assert (nx * 2 ^ (ex + 1074) < ny * 2 ^ (ey + 1074))
          by (apply Lxy; lia). lia.
      * apply Z.compare_lt_iff.
        assert (ny * 2 ^ (ey + 1074) < nx * 2 ^ (ex + 1074))
          by (apply Lyx; lia). lia.
    + apply Z.compare_lt_iff. nia.
    + apply Z.compare_gt_iff. nia.
    + destruct (Z.compare_spec ex ey) as [E|E|E].
      * subst ey. destruct (Z.compare_spec nx ny) as [M|M|M].
        -- subst. apply Z.compare_refl.
        -- apply Z.compare_lt_iff. nia.
        -- apply Z.compare_gt_iff. nia.
      * apply Z.compare_lt_iff. apply Lxy; lia.
      * apply Z.compare_gt_iff. apply Lyx; lia.
Qed.

End FloatValue.

(** ** Rounding *)

Module Rounding.

Import FloatOrder FloatValue.

(** [round_half_even] is monotone. *)
Lemma round_half_even_mono (q1 q2 : Q) :
  (q1 <= q2)%Q -> round_half_even q1 <= round_half_even q2.
Proof.
  unfold Qle, round_half_even.
  destruct q1 as [n1 d1], q2 as [n2 d2]. cbn [Qnum Qden].
  intros H.
  pose proof (Z.div_mod n1 (Zpos d1) ltac:(lia)) as E1.
  pose proof (Z.div_mod n2 (Zpos d2) ltac:(lia)) as E2.
  pose proof (Z.mod_pos_bound n1 (Zpos d1) ltac:(lia)) as B1.
  pose proof (Z.mod_pos_bound n2 (Zpos d2) ltac:(lia)) as B2.
  pose proof (Pos2Z.is_pos d1) as P1. pose proof (Pos2Z.is_pos d2) as P2.
  remember (n1 / Zpos d1) as f1. remember (n1 mod Zpos d1) as r1.
  remember (n2 / Zpos d2) as f2. remember (n2 mod Zpos d2) as r2.
  remember (Zpos d1) as a1. remember (Zpos d2) as a2.
  clear Heqf1 Heqf2 Heqr1 Heqr2 Heqa1 Heqa2.
  subst n1 n2.
  assert (Hr2 : r2 * a1 < a2 * a1) by (apply Z.mul_lt_mono_pos_r; lia).
  assert (Hr1 : 0 <= r1 * a2) by (apply Z.mul_nonneg_nonneg; lia).
  assert (Ha : 0 < a1 * a2) by (apply Z.mul_pos_pos; lia).
  assert (Hf : f1 <= f2).
  { destruct (Z.le_gt_cases f1 f2) as [L|L]; [assumption|exfalso].
    assert (a1 * a2 * (f2 + 1) <= a1 * a2 * f1)
      by (apply Z.mul_le_mono_nonneg_l; lia).
    lia. }
  assert (Hc : f1 < f2 \/ (f1 = f2 /\ r1 * a2 <= r2 * a1)).
  { destruct (Z.eq_dec f1 f2) as [E|E]; [right|left; lia].
    split; [assumption|]. subst f2. lia. }
  destruct Hc as [Hc|[Hc Hr]].
  - destruct (Z.compare_spec (2 * r1) a1), (Z.compare_spec (2 * r2) a2);
      destruct (Z.even f1), (Z.even f2); lia.
  - subst f2.
    destruct (Z.compare_spec (2 * r1) a1), (Z.compare_spec (2 * r2) a2);
      destruct (Z.even f1); try lia; exfalso; nia.
Qed.


(** The rational value is the scaled integer value over [2^1074]. *)
Lemma F2Q_F2Z (x : float) :
  is_binary64 x = true ->
  (F2Q x == F2Z x # Pos.pow 2 1074)%Q.
Proof.
  destruct x as [s|s| |s m e]; try reflexivity.
  unfold is_binary64. cbn [valid_binary]. intros H.
  apply bounded_spec in H. destruct H as (He & _ & _).
  unfold F2Q, F2Z, Qeq.
  assert (HD : Zpos (Pos.pow 2 1074) = 2 ^ 1074) by apply Pos2Z.inj_pow.
  destruct e as [|p|p]; cbn [Qnum Qden inject_Z].
  - rewrite HD. lia.
  - rewrite HD. rewrite (Z.pow_add_r 2 (Zpos p) 1074) by lia. lia.
  - rewrite HD, Pos2Z.inj_pow.
    replace (2 ^ 1074) with (2 ^ (Zneg p + 1074) * 2 ^ Zpos p).
    + lia.
    + rewrite <- Z.pow_add_r by lia. f_equal. lia.
Qed.

Lemma F2Z_le_F2Q (x y : float) :
  is_binary64 x = true -> is_binary64 y = true ->
  F2Z x <= F2Z y -> (F2Q x <= F2Q y)%Q.
Proof.
  intros Hx Hy H.
  rewrite (F2Q_F2Z x Hx), (F2Q_F2Z y Hy).
  unfold Qle. cbn [Qnum Qden].
  apply Z.mul_le_mono_nonneg_r; [lia|assumption].
Qed.

Lemma py_round_finite (x : float) :
  is_finite x = true -> py_round x = Ok (rnd x).
Proof. destruct x; try discriminate; reflexivity. Qed.

Lemma rnd_mono (x y : float) :
  is_binary64 x = true -> is_binary64 y = true ->
  F2Z x <= F2Z y -> rnd x <= rnd y.
Proof.
  intros Hx Hy H. apply round_half_even_mono, F2Z_le_F2Q; assumption.
Qed.

Section MinMax.

Variables a b : float.
Hypothesis Ha : is_binary64 a = true.
Hypothesis Hb : is_binary64 b = true.
Hypothesis Fa : is_finite a = true.
Hypothesis Fb : is_finite b = true.

Lemma flt_F2Z : flt b a = (F2Z b <? F2Z a).
Proof.
  unfold flt, SFltb. rewrite (SFcompare_F2Z b a Hb Ha Fb Fa).
  unfold Z.ltb. destruct (F2Z b ?= F2Z a); reflexivity.
Qed.

Lemma fgt_F2Z : fgt b a = (F2Z a <? F2Z b).
Proof.
  unfold fgt. rewrite (SFcompare_F2Z b a Hb Ha Fb Fa).
  rewrite (Z.compare_antisym (F2Z a) (F2Z b)).
  unfold Z.ltb. destruct (F2Z a ?= F2Z b); reflexivity.
Qed.

Lemma py_min_finite : is_finite (py_min a b) = true.
Proof. unfold py_min. destruct (flt b a); assumption. Qed.

Lemma py_max_finite : is_finite (py_max a b) = true.
Proof. unfold py_max. destruct (fgt b a); assumption. Qed.

(** Rounding commutes with the two-argument minimum and maximum. *)
Lemma rnd_py_min : rnd (py_min a b) = Z.min (rnd a) (rnd b).
Proof.
  unfold py_min. rewrite flt_F2Z.
  destruct (Z.ltb_spec (F2Z b) (F2Z a)) as [H|H].
  - pose proof (rnd_mono b a Hb Ha ltac:(lia)). lia.
  - pose proof (rnd_mono a b Ha Hb ltac:(lia)). lia.
Qed.

Lemma rnd_py_max : rnd (py_max a b) = Z.max (rnd a) (rnd b).
Proof.
  unfold py_max. rewrite fgt_F2Z.
  destruct (Z.ltb_spec (F2Z a) (F2Z b)) as [H|H].
  - pose proof (rnd_mono a b Ha Hb ltac:(lia)). lia.
  - pose proof (rnd_mono b a Hb Ha ltac:(lia)). lia.
Qed.

End MinMax.

End Rounding.

(** ** The projection of the forecast to counts *)

Section Projection.

Import Rounding.

Variables y_hat_raw conf0 conf1 : float.
Hypothesis Fy : is_finite y_hat_raw = true.
Hypothesis B0 : is_binary64 conf0 = true.
Hypothesis F0 : is_finite conf0 = true.
Hypothesis B1 : is_binary64 conf1 = true.
Hypothesis F1 : is_finite conf1 = true.

Lemma project_finite :
  project y_hat_raw conf0 conf1 =
  Ok (mkForecast (clamp0 (rnd y_hat_raw))
                 (clamp0 (Z.min (rnd conf0) (rnd conf1)))
                 (clamp0 (Z.max (rnd conf0) (rnd conf1)))).
Proof.
  unfold project.
  rewrite (py_round_finite y_hat_raw Fy).
  rewrite (py_round_finite _ (py_min_finite conf0 conf1 F0 F1)).
  rewrite (py_round_finite _ (py_max_finite conf0 conf1 F0 F1)).
  cbn [bind].
  rewrite (rnd_py_min conf0 conf1 B0 B1 F0 F1).
  rewrite (rnd_py_max conf0 conf1 B0 B1 F0 F1).
  reflexivity.
Qed.

Lemma project_spec_finite :
  project_spec y_hat_raw conf0 conf1 =
  Ok (mkForecast (clamp0 (rnd y_hat_raw))
                 (Z.min (clamp0 (rnd conf0)) (clamp0 (rnd conf1)))
                 (Z.max (clamp0 (rnd conf0)) (clamp0 (rnd conf1)))).
Proof.
  unfold project_spec.
  rewrite (py_round_finite y_hat_raw Fy), (py_round_finite conf0 F0),
    (py_round_finite conf1 F1).
  reflexivity.
Qed.

End Projection.

(** C1: for every finite raw predicted mean and every pair of finite raw
    interval bounds (of either sign, in either order), the projection of
    lines 127-134 of [main] returns three integers [y_hat], [lower] and
    [upper] that are all at least 0, with [lower <= upper]. *)
Theorem C1_forecast_counts (y_hat_raw conf0 conf1 : float) :
  is_finite y_hat_raw = true ->
  is_binary64 conf0 = true -> is_finite conf0 = true ->
  is_binary64 conf1 = true -> is_finite conf1 = true ->
  exists fc,
    project y_hat_raw conf0 conf1 = Ok fc /\
    0 <= y_hat fc /\ 0 <= lower fc /\ 0 <= upper fc /\ lower fc <= upper fc.
Proof.
  intros Fy B0 F0 B1 F1.
  eexists. split; [apply project_finite; assumption|].
  cbn [y_hat lower upper]. unfold clamp0. lia.
Qed.

(** A negative mean and an interval that crosses zero, upper bound first. *)
Lemma C1_forecast_counts_witness :
  exists fc,
    project fm0_5 f1_5 fm2_5 = Ok fc /\
    0 <= y_hat fc /\ 0 <= lower fc /\ 0 <= upper fc /\ lower fc <= upper fc.
Proof.
  apply C1_forecast_counts; reflexivity.
Defined.

(** C4: on every finite raw mean and pair of finite raw bounds, the
    projection worded by the specification (round each, clamp each at 0,
    then order the bounds as (min, max)) and the projection of the code
    (order the raw bounds as (min, max), then round, then clamp) return the
    same triple. *)
Theorem C4_projection_orders_agree (y_hat_raw conf0 conf1 : float) :
  is_finite y_hat_raw = true ->
  is_binary64 conf0 = true -> is_finite conf0 = true ->
  is_binary64 conf1 = true -> is_finite conf1 = true ->
  project_spec y_hat_raw conf0 conf1 = project y_hat_raw conf0 conf1.
Proof.
  intros Fy B0 F0 B1 F1.
  rewrite project_finite, project_spec_finite by assumption.
  unfold clamp0. do 2 f_equal; lia.
Qed.

Lemma C4_projection_orders_agree_witness :
  project_spec fm0_5 f1_5 fm2_5 = project fm0_5 f1_5 fm2_5.
Proof.
  apply C4_projection_orders_agree; reflexivity.
Defined.



Example round_0_5 : py_round c0_5 = Ok 0.
Proof. reflexivity. Qed.

Example round_2_5 : py_round f2_5 = Ok 2.
Proof. reflexivity. Qed.

Example round_minus_0_5 : py_round fm0_5 = Ok 0.
Proof. reflexivity. Qed.

Example round_0_4 : py_round f0_4 = Ok 0.
Proof. reflexivity. Qed.

(** ** The order search *)

Lemma grid_enumeration :
  grid =
  [ (0,0,0); (0,0,1); (0,0,2); (0,0,3); (0,1,0); (0,1,1); (0,1,2); (0,1,3);
    (1,0,0); (1,0,1); (1,0,2); (1,0,3); (1,1,0); (1,1,1); (1,1,2); (1,1,3);
    (2,0,0); (2,0,1); (2,0,2); (2,0,3); (2,1,0); (2,1,1); (2,1,2); (2,1,3);
    (3,0,0); (3,0,1); (3,0,2); (3,0,3); (3,1,0); (3,1,1); (3,1,2); (3,1,3) ].
Proof. reflexivity. Qed.

Lemma grid_length : List.length grid = 32%nat.
Proof. reflexivity. Qed.

Lemma grid_range (p d q : Z) :
  In (p, d, q) grid <-> (0 <= p <= 3 /\ 0 <= d <= 1 /\ 0 <= q <= 3).
Proof.
  split.
  - rewrite grid_enumeration. cbn [In].
    intros H.
    repeat (destruct H as [H|H]; [injection H; intros; subst; lia|]).
    destruct H.
  - intros (Hp & Hd & Hq).
    assert (Ep : p = 0 \/ p = 1 \/ p = 2 \/ p = 3) by lia.
    assert (Ed : d = 0 \/ d = 1) by lia.
    assert (Eq : q = 0 \/ q = 1 \/ q = 2 \/ q = 3) by lia.
    rewrite grid_enumeration.
    destruct Ep as [->|[->|[->| ->]]], Ed as [->| ->],
          Eq as [->|[->|[->| ->]]]; cbn [In]; tauto.
Qed.

Lemma grid_NoDup : NoDup grid.
Proof.
  rewrite grid_enumeration.
  repeat (constructor; [cbn [In]; intros H;
    repeat (destruct H as [H|H]; [discriminate H|]); exact H|]).
  constructor.
Qed.

Lemma fold_left_ext {A B : Type} (f g : A -> B -> A) (l : list B) (a : A) :
  (forall a b, f a b = g a b) -> fold_left f l a = fold_left g l a.
Proof.
  intros H. revert a. induction l as [|x l IH]; intros a; cbn; [reflexivity|].
  rewrite H. apply IH.
Qed.

Lemma fold_left_map {A B C : Type} (f : A -> C -> A) (h : B -> C)
      (l : list B) (a : A) :
  fold_left f (map h l) a = fold_left (fun a x => f a (h x)) l a.
Proof.
  revert a. induction l as [|x l IH]; intros a; cbn; [reflexivity|apply IH].
Qed.

Lemma fold_left_flat_map {A B C : Type} (f : A -> C -> A) (g : B -> list C)
      (l : list B) (a : A) :
  fold_left f (flat_map g l) a = fold_left (fun a x => fold_left f (g x) a) l a.
Proof.
  revert a. induction l as [|x l IH]; intros a; cbn [flat_map fold_left].
  - reflexivity.
  - rewrite fold_left_app. apply IH.
Qed.

Section SearchProperties.

Import FloatOrder.

Context {R : Type}.
Variable fit : order -> result R.
Variable aic : R -> float.

(** The three nested loops visit [grid] from left to right. *)
Lemma auto_arimax_search : auto_arimax fit aic = search fit aic grid.
Proof.
  unfold auto_arimax, search, grid.
  rewrite fold_left_flat_map. apply fold_left_ext. intros best p.
  rewrite fold_left_flat_map. apply fold_left_ext. intros best' d.
  rewrite fold_left_map. reflexivity.
Qed.

Lemma search_inv_init : search_inv fit aic [] best_init.
Proof. split; [reflexivity|]. intros c rc []. Qed.

Lemma above_inf (a x : float) :
  flt a inf = true -> flt x inf = false ->
  is_nan x = true \/ flt a x = true.
Proof.
  intros Ha Hx. destruct (is_nan x) eqn:Nx; [left; reflexivity|right].
  apply flt_fle_trans with (b := inf); [assumption|].
  apply not_flt_fle; [assumption|reflexivity|assumption].
Qed.

Lemma search_inv_step (seen : list order) (best : best_t) (c : order) :
  search_inv fit aic seen best ->
  search_inv fit aic (seen ++ [c]) (try_candidate fit aic best c).
Proof.
  unfold try_candidate.
  destruct best as [[[o|] a] [r|]]; cbn [search_inv fst snd]; try tauto.
  - (* a candidate is held *)
    intros (Ho & Ha & Hinf & l1 & l2 & Hs & H1 & H2).
    destruct (fit c) as [rc|e] eqn:Hc.
    + destruct (flt (aic rc) a) eqn:Hlt.
      * (* the new candidate is strictly better *)
        cbn [search_inv]. repeat split; try assumption.
        -- apply flt_fle_trans with (b := a); [assumption|].
           apply flt_fle; assumption.
        -- exists seen, []. split; [reflexivity|]. split; [|intros ? ? []].
           intros c' rc' Hin Hc'. subst seen.
           apply in_app_or in Hin. destruct Hin as [Hin|[Hin|Hin]].
           ++ destruct (H1 c' rc' Hin Hc') as [Hn|Hl]; [left; exact Hn|].
              right. apply flt_fle_trans with (b := a); [assumption|].
              apply flt_fle; assumption.
           ++ subst c'. rewrite Ho in Hc'. injection Hc' as <-.
              right. rewrite <- Ha. exact Hlt.
           ++ pose proof (H2 c' rc' Hin Hc') as Hge.
              destruct (is_nan (aic rc')) eqn:Nn; [left; reflexivity|right].
              apply flt_fle_trans with (b := a); [assumption|].
              apply not_flt_fle; try assumption.
              apply (flt_not_nan _ _ Hinf).
      * cbn [search_inv]. repeat split; try assumption.
        exists l1, (l2 ++ [c]). subst seen.
        split; [rewrite <- app_assoc; reflexivity|]. split; [assumption|].
        intros c' rc' Hin Hc'. apply in_app_or in Hin.
        destruct Hin as [Hin|[<-|[]]]; [eauto|].
        rewrite Hc in Hc'. injection Hc' as <-. exact Hlt.
    + cbn [search_inv]. repeat split; try assumption.
      exists l1, (l2 ++ [c]). subst seen.
      split; [rewrite <- app_assoc; reflexivity|]. split; [assumption|].
      intros c' rc' Hin Hc'. apply in_app_or in Hin.
      destruct Hin as [Hin|[<-|[]]]; [eauto|].
      rewrite Hc in Hc'. discriminate.
  - (* nothing is held yet *)
    intros (Ha & Hall). subst a.
    destruct (fit c) as [rc|e] eqn:Hc.
    + destruct (flt (aic rc) inf) eqn:Hlt.
      * cbn [search_inv]. repeat split; try assumption.
        exists seen, []. split; [reflexivity|]. split; [|intros ? ? []].
        intros c' rc' Hin Hc'. apply above_inf; eauto.
      * cbn [search_inv]. split; [reflexivity|].
        intros c' rc' Hin Hc'. apply in_app_or in Hin.
        destruct Hin as [Hin|[<-|[]]]; [eauto|].
        rewrite Hc in Hc'. injection Hc' as <-. exact Hlt.
    + cbn [search_inv]. split; [reflexivity|].
      intros c' rc' Hin Hc'. apply in_app_or in Hin.
      destruct Hin as [Hin|[<-|[]]]; [eauto|].
      rewrite Hc in Hc'. discriminate.
Qed.

Lemma search_inv_fold (l seen : list order) (best : best_t) :
  search_inv fit aic seen best ->
  search_inv fit aic (seen ++ l) (fold_left (try_candidate fit aic) l best).
Proof.
  revert seen best. induction l as [|c l IH]; intros seen best H.
  - rewrite app_nil_r. exact H.
  - cbn [fold_left].
    replace (seen ++ c :: l) with ((seen ++ [c]) ++ l)
      by (rewrite <- app_assoc; reflexivity).
    apply IH, search_inv_step, H.
Qed.

Lemma search_inv_search (l : list order) : search_inv fit aic l (search fit aic l).
Proof. apply (search_inv_fold l [] best_init), search_inv_init. Qed.

Lemma search_returns (l : list order) (o : order) (a : float)
      (res : option R) :
  search fit aic l = (Some o, a, res) ->
  exists r l1 l2,
    res = Some r /\ fit o = Ok r /\ a = aic r /\ flt a inf = true /\
    l = l1 ++ o :: l2 /\
    (forall c rc, In c l1 -> fit c = Ok rc ->
                  is_nan (aic rc) = true \/ flt a (aic rc) = true) /\
    (forall c rc, In c l2 -> fit c = Ok rc -> flt (aic rc) a = false).
Proof.
  intros H. pose proof (search_inv_search l) as Inv. rewrite H in Inv.
  destruct res as [r|]; cbn [search_inv] in Inv; [|destruct Inv].
  destruct Inv as (Ho & Ha & Hinf & l1 & l2 & Hg & H1 & H2).
  exists r, l1, l2. repeat split; assumption.
Qed.

(** A candidate whose fit raises leaves [best] as it was. *)
Lemma try_candidate_raise (best : best_t) (c : order) (e : exn) :
  fit c = Raise e -> try_candidate fit aic best c = best.
Proof. unfold try_candidate. intros ->. reflexivity. Qed.

(** The search goes on after a failed fit, with the result it would
    have without that candidate. *)
Lemma search_skips_failed_fit (l1 l2 : list order) (c : order) (e : exn) :
  fit c = Raise e ->
  search fit aic (l1 ++ c :: l2) = search fit aic (l1 ++ l2).
Proof.
  intros Hc. unfold search. rewrite !fold_left_app. cbn [fold_left].
  rewrite (try_candidate_raise _ c e Hc). reflexivity.
Qed.

(** The failure value is returned exactly when no candidate fits with a
    score below [+inf]. *)
Lemma search_fails_iff (l : list order) :
  search fit aic l = best_init <->
  (forall c rc, In c l -> fit c = Ok rc -> flt (aic rc) inf = false).
Proof.
  pose proof (search_inv_search l) as H. split.
  - intros E. rewrite E in H. apply H.
  - intros Hall.
    destruct (search fit aic l) as [[[o|] a] [r|]]; cbn [search_inv] in H;
      try tauto.
    + destruct H as (Ho & Ha & Hinf & l1 & l2 & Hs & _).
      subst a. rewrite (Hall o r) in Hinf; [discriminate| |assumption].
      subst l. apply in_or_app. right. left. reflexivity.
    + destruct H as [-> _]. reflexivity.
Qed.

Lemma search_fails_when_all_raise (l : list order) :
  (forall c, In c l -> exists e, fit c = Raise e) ->
  search fit aic l = best_init.
Proof.
  intros H. apply search_fails_iff. intros c rc Hin Hc.
  destruct (H c Hin) as [e He]. congruence.
Qed.

End SearchProperties.

(** A candidate that fits with the score NaN is not selected, and the
    selected score is not [<=] it: the claim C2 read on every candidate
    that fit fails on [fit_nan]. *)
Lemma C2_nan_score_counterexample :
  ~ (forall o a res,
        auto_arimax fit_nan aic_id = (Some o, a, res) ->
        forall c rc, In c grid -> fit_nan c = Ok rc ->
                     fle a (aic_id rc) = true).
Proof.
  intros H.
  assert (E : auto_arimax fit_nan aic_id = (Some (0, 0, 0), c1_0, Some c1_0))
    by (vm_compute; reflexivity).
  specialize (H _ _ _ E (0, 0, 1) S754_nan).
  assert (Hin : In (0, 0, 1) grid) by (apply grid_range; lia).
  specialize (H Hin eq_refl). discriminate H.
Qed.

(** When no order is returned, the value is the starting one and no
    candidate fitted with a score below [+inf]. *)
Lemma search_none {R : Type} (fit : order -> result R) (aic : R -> float)
      (l : list order) (a : float) (res : option R) :
  search fit aic l = (None, a, res) ->
  a = inf /\ res = None /\
  forall c rc, In c l -> fit c = Ok rc -> flt (aic rc) inf = false.
Proof.
  intros H. pose proof (search_inv_search fit aic l) as Inv. rewrite H in Inv.
  destruct res as [r|]; cbn [search_inv] in Inv; [destruct Inv|].
  destruct Inv as [-> Hall]. repeat split; assumption.
Qed.

(** C2 (amended): whatever the fits do, the search visits exactly the 32
    candidates of {0..3} x {0,1} x {0..3}, p outer, d middle, q inner,
    each ascending. A returned candidate [o] lies in that grid, fitted
    successfully and carries its own score [a]; [a] is a number (not NaN)
    strictly below [+inf], so a candidate whose score is NaN is never
    selected; [a] is [<=] the score of every candidate that fitted with a
    score that is not NaN, no candidate that fitted has a score strictly
    below [a], and every candidate visited before [o] that fitted has a
    score that is not [<= a]: ties go to the candidate met first. When no
    candidate is returned the value is [(None, inf, None)]. *)
Theorem C2_order_search {R : Type} (fit : order -> result R) (aic : R -> float) :
  (auto_arimax fit aic = search fit aic grid /\
   grid =
   [ (0,0,0); (0,0,1); (0,0,2); (0,0,3); (0,1,0); (0,1,1); (0,1,2); (0,1,3);
     (1,0,0); (1,0,1); (1,0,2); (1,0,3); (1,1,0); (1,1,1); (1,1,2); (1,1,3);
     (2,0,0); (2,0,1); (2,0,2); (2,0,3); (2,1,0); (2,1,1); (2,1,2); (2,1,3);
     (3,0,0); (3,0,1); (3,0,2); (3,0,3); (3,1,0); (3,1,1); (3,1,2); (3,1,3) ] /\
   List.length grid = 32%nat /\ NoDup grid /\
   (forall p d q, In (p, d, q) grid <->
                  (0 <= p <= 3 /\ 0 <= d <= 1 /\ 0 <= q <= 3))) /\
  (forall o a res,
      auto_arimax fit aic = (Some o, a, res) ->
      In o grid /\
      exists r,
        res = Some r /\ fit o = Ok r /\ a = aic r /\
        is_nan a = false /\ flt a inf = true /\
        (forall c rc, In c grid -> fit c = Ok rc ->
                      is_nan (aic rc) = true -> c <> o) /\
        (forall c rc, In c grid -> fit c = Ok rc -> is_nan (aic rc) = false ->
                      fle a (aic rc) = true) /\
        (forall c rc, In c grid -> fit c = Ok rc -> flt (aic rc) a = false) /\
        exists l1 l2,
          grid = l1 ++ o :: l2 /\
          (forall c rc, In c l1 -> fit c = Ok rc -> fle (aic rc) a = false)) /\
  (forall a res,
      auto_arimax fit aic = (None, a, res) ->
      a = inf /\ res = None /\
      forall c rc, In c grid -> fit c = Ok rc -> flt (aic rc) inf = false).
Proof.
  split; [|split].
  { split; [apply auto_arimax_search|].
    split; [apply grid_enumeration|].
    split; [apply grid_length|]. split; [apply grid_NoDup|].
    apply grid_range. }
  2:{ intros a res H. rewrite auto_arimax_search in H.
      apply (search_none fit aic grid a res H). }
  intros o a res H.
  rewrite auto_arimax_search in H.
  destruct (search_returns fit aic grid o a res H)
    as (r & l1 & l2 & -> & Ho & Ha & Hinf & Hg & H1 & H2).
  destruct (FloatOrder.flt_not_nan _ _ Hinf) as [Na _].
  assert (Hin : In o grid).
  { rewrite Hg. apply in_or_app. right. left. reflexivity. }
  split; [exact Hin|].
  exists r. split; [reflexivity|]. split; [assumption|]. split; [assumption|].
  split; [exact Na|]. split; [exact Hinf|].
  split; [|split; [|split]].
  - intros c rc _ Hfit Hn Ec. subst c. rewrite Ho in Hfit.
    injection Hfit as <-. rewrite <- Ha in Hn. congruence.
  - intros c rc Hc Hfit Hn. rewrite Hg in Hc. apply in_app_or in Hc.
    destruct Hc as [Hc|[Hc|Hc]].
    + destruct (H1 c rc Hc Hfit) as [Hnan|Hlt]; [congruence|].
      apply FloatOrder.flt_fle, Hlt.
    + subst c. rewrite Ho in Hfit. injection Hfit as <-. rewrite <- Ha.
      apply FloatOrder.fle_refl, Na.
    + apply FloatOrder.not_flt_fle; eauto.
  - intros c rc Hc Hfit. rewrite Hg in Hc. apply in_app_or in Hc.
    destruct Hc as [Hc|[Hc|Hc]].
    + destruct (H1 c rc Hc Hfit) as [Hnan|Hlt].
      * unfold flt, SFltb. rewrite FloatOrder.SFcompare_nan; auto.
      * apply FloatOrder.fle_not_flt, FloatOrder.flt_fle, Hlt.
    + subst c. rewrite Ho in Hfit. injection Hfit as <-. rewrite <- Ha.
      apply FloatOrder.fle_not_flt, FloatOrder.fle_refl, Na.
    + eauto.
  - exists l1, l2. split; [assumption|].
    intros c rc Hc Hfit.
    destruct (H1 c rc Hc Hfit) as [Hnan|Hlt].
    + unfold fle, SFleb. rewrite FloatOrder.SFcompare_nan; auto.
    + destruct (fle (aic rc) a) eqn:E; [|reflexivity].
      apply FloatOrder.fle_not_flt in E. congruence.
Qed.

(** The search on [fit_tie] returns (1,0,0), not the later (2,1,3) of the
    same score, nor (3,0,0) whose score is NaN. *)
Lemma C2_order_search_witness :
  auto_arimax fit_tie aic_id = (Some (1, 0, 0), f1_5, Some f1_5) /\
  is_nan f1_5 = false /\
  (3, 0, 0) <> (1, 0, 0) /\
  exists l1 l2,
    grid = l1 ++ (1, 0, 0) :: l2 /\
    (forall c rc, In c l1 -> fit_tie c = Ok rc -> fle (aic_id rc) f1_5 = false).
Proof.
  assert (E : auto_arimax fit_tie aic_id = (Some (1, 0, 0), f1_5, Some f1_5))
    by (vm_compute; reflexivity).
  split; [exact E|].
  destruct (proj1 (proj2 (C2_order_search fit_tie aic_id)) _ _ _ E)
    as (Hin & r & _ & _ & _ & Na & _ & Hnan & _ & _ & T).
  split; [exact Na|]. split; [|exact T].
  apply (Hnan (3, 0, 0) S754_nan); [|reflexivity|reflexivity].
  apply grid_range. lia.
Defined.

(** ** Series preparation *)

Module Preparation.

Lemma insert_row_perm (r : timestamp * obs) (l : frame) :
  Permutation (insert_row r l) (r :: l).
Proof.
  induction l as [|x l IH]; cbn [insert_row]; [reflexivity|].
  destruct (fst r <? fst x); [reflexivity|].
  rewrite IH. apply perm_swap.
Qed.

Lemma sort_values_perm (df : frame) : Permutation (sort_values df) df.
Proof.
  induction df as [|r l IH]; cbn; [reflexivity|].
  fold (sort_values l). rewrite insert_row_perm. constructor. exact IH.
Qed.

Lemma sort_values_perm_index (df : frame) :
  Permutation (index_of (sort_values df)) (index_of df).
Proof. apply Permutation_map, sort_values_perm. Qed.

Lemma has_duplicates_NoDup (ix : list timestamp) :
  NoDup ix -> has_duplicates ix = false.
Proof.
  induction 1 as [|t ts Hin Hnd IH]; cbn [has_duplicates]; [reflexivity|].
  rewrite IH, orb_false_r.
  destruct (existsb (Z.eqb t) ts) eqn:E; [|reflexivity].
  apply existsb_exists in E. destruct E as (x & Hx & Ex).
  apply Z.eqb_eq in Ex. subst x. contradiction.
Qed.

Lemma has_duplicates_head (t : timestamp) (ts : list timestamp) :
  In t ts -> has_duplicates (t :: ts) = true.
Proof.
  intros H. cbn [has_duplicates]. apply orb_true_intro. left.
  apply existsb_exists. exists t. split; [assumption|apply Z.eqb_refl].
Qed.

Lemma fold_min_spec (ts : list timestamp) (t : timestamp) :
  In (fold_left Z.min ts t) (t :: ts) /\
  (forall x, In x (t :: ts) -> fold_left Z.min ts t <= x).
Proof.
  revert t. induction ts as [|u ts IH]; intros t; cbn [fold_left].
  - split; [left; reflexivity|]. intros x [<-|[]]. lia.
  - destruct (IH (Z.min t u)) as [Hin Hle]. split.
    + destruct Hin as [E|Hin]; [|right; right; exact Hin].
      rewrite <- E. destruct (Z.min_spec t u) as [[_ ->]|[_ ->]];
        [left|right; left]; reflexivity.
    + intros x [<-|[<-|Hx]].
      * pose proof (Hle (Z.min t u) (or_introl eq_refl)). lia.
      * pose proof (Hle (Z.min t u) (or_introl eq_refl)). lia.
      * apply Hle. right. exact Hx.
Qed.

Lemma fold_max_spec (ts : list timestamp) (t : timestamp) :
  In (fold_left Z.max ts t) (t :: ts) /\
  (forall x, In x (t :: ts) -> x <= fold_left Z.max ts t).
Proof.
  revert t. induction ts as [|u ts IH]; intros t; cbn [fold_left].
  - split; [left; reflexivity|]. intros x [<-|[]]. lia.
  - destruct (IH (Z.max t u)) as [Hin Hle]. split.
    + destruct Hin as [E|Hin]; [|right; right; exact Hin].
      rewrite <- E. destruct (Z.max_spec t u) as [[_ ->]|[_ ->]];
        [right; left|left]; reflexivity.
    + intros x [<-|[<-|Hx]].
      * pose proof (Hle (Z.max t u) (or_introl eq_refl)). lia.
      * pose proof (Hle (Z.max t u) (or_introl eq_refl)). lia.
      * apply Hle. right. exact Hx.
Qed.

Lemma index_min_spec (ix : list timestamp) (lo : timestamp) :
  index_min ix = Some lo -> In lo ix /\ (forall x, In x ix -> lo <= x).
Proof.
  destruct ix as [|t ts]; [discriminate|]. cbn [index_min].
  intros E. injection E as <-. apply fold_min_spec.
Qed.

Lemma index_max_spec (ix : list timestamp) (hi : timestamp) :
  index_max ix = Some hi -> In hi ix /\ (forall x, In x ix -> x <= hi).
Proof.
  destruct ix as [|t ts]; [discriminate|]. cbn [index_max].
  intros E. injection E as <-. apply fold_max_spec.
Qed.

(** The extrema of an index do not depend on the order of its rows. *)
Lemma index_min_perm (l l' : list timestamp) (lo : timestamp) :
  Permutation l l' -> index_min l = Some lo -> index_min l' = Some lo.
Proof.
  intros P H. destruct (index_min_spec _ _ H) as [Hin Hle].
  destruct l' as [|t ts].
  - apply Permutation_sym, Permutation_nil in P. subst l. discriminate.
  - cbn [index_min]. f_equal.
    destruct (fold_min_spec ts t) as [Hin' Hle'].
    apply Z.le_antisymm.
    + apply Hle'. eapply Permutation_in; eauto.
    + apply Hle. eapply Permutation_in; [apply Permutation_sym|]; eauto.
Qed.

Lemma index_max_perm (l l' : list timestamp) (hi : timestamp) :
  Permutation l l' -> index_max l = Some hi -> index_max l' = Some hi.
Proof.
  intros P H. destruct (index_max_spec _ _ H) as [Hin Hle].
  destruct l' as [|t ts].
  - apply Permutation_sym, Permutation_nil in P. subst l. discriminate.
  - cbn [index_max]. f_equal.
    destruct (fold_max_spec ts t) as [Hin' Hle'].
    apply Z.le_antisymm.
    + apply Hle. eapply Permutation_in; [apply Permutation_sym|]; eauto.
    + apply Hle'. eapply Permutation_in; eauto.
Qed.

Lemma daily_map_seq (lo : timestamp) (s n : nat) :
  daily (map (fun k => lo + Z.of_nat k * DAY) (seq s n)).
Proof.
  revert s. induction n as [|n IH]; intros s; [exact I|].
  cbn [seq map]. specialize (IH (S s)).
  destruct n as [|n]; [exact I|].
  cbn [seq map daily] in *. split; [unfold DAY; lia|exact IH].
Qed.

Lemma daily_date_range (lo hi : timestamp) : daily (date_range lo hi).
Proof. apply daily_map_seq. Qed.

Lemma date_range_head (lo hi : timestamp) :
  exists tl, date_range lo hi = lo :: tl.
Proof.
  unfold date_range. rewrite Nat.add_1_r. cbn [seq map].
  eexists. f_equal. unfold DAY. lia.
Qed.

Lemma daily_sorted (ix : list timestamp) : daily ix -> Sorted Z.lt ix.
Proof.
  induction ix as [|t tl IH]; intros H; [constructor|].
  destruct tl as [|t' tl]; [repeat constructor|].
  destruct H as [E H]. constructor; [apply IH, H|].
  constructor. unfold DAY in E. lia.
Qed.

(** [loc] finds a row of the frame or makes a row of NaN. *)
Lemma loc_cases (t : timestamp) (df : frame) :
  (~ In t (index_of df) /\ loc t df = nan_obs) \/ In (t, loc t df) df.
Proof.
  induction df as [|[t' o] df IH]; cbn [loc index_of map In fst].
  - left. split; [tauto|reflexivity].
  - destruct (Z.eqb_spec t t') as [->|N].
    + right. left. reflexivity.
    + destruct IH as [[Hn E]|Hin].
      * left. split; [|exact E]. intros [E'|H]; [congruence|].
        apply Hn, H.
      * right. right. exact Hin.
Qed.

Lemma loc_found (t : timestamp) (df : frame) :
  In t (index_of df) -> In (t, loc t df) df.
Proof.
  intros H. destruct (loc_cases t df) as [[Hn _]|Hin]; [contradiction|].
  exact Hin.
Qed.

Lemma index_of_combine {A : Type} (ix : list timestamp) (c : list A) :
  List.length c = List.length ix -> index_of (combine ix c) = ix.
Proof.
  revert c. induction ix as [|t ix IH]; intros [|x c] H; cbn in *;
    try reflexivity; try discriminate.
  f_equal. apply IH. lia.
Qed.

Lemma dropna_not_nan (table : list table_row) (t : timestamp) (o : obs) :
  In (t, o) (dropna table) ->
  is_nan (temperature o) = false /\ is_nan (humidity o) = false /\
  is_nan (captures o) = false.
Proof.
  unfold dropna. rewrite in_flat_map. intros (r & _ & H).
  destruct (Date r) as [t'|]; [|destruct H].
  destruct (is_nan (temperature_mean r)) eqn:E1; [destruct H|].
  destruct (is_nan (relativehumidity_mean r)) eqn:E2; [destruct H|].
  destruct (is_nan (adult_males r)) eqn:E3; [destruct H|].
  cbn in H. destruct H as [H|[]]. injection H as _ <-. cbn. auto.
Qed.

End Preparation.

Section InterpolationProperties.

Import Preparation.

Variable lerp : float -> float -> Z -> Z -> float.

(** numpy's interpolation between two finite values is a number (it may
    overflow to an infinity, it is never NaN). *)
Hypothesis lerp_finite :
  forall a b i n,
    is_finite a = true -> is_finite b = true -> 0 < i < n ->
    is_nan (lerp a b i n) = false.

Lemma finite_not_nan (x : float) : is_finite x = true -> is_nan x = false.
Proof. destruct x; try discriminate; reflexivity. Qed.

Lemma next_valid_spec (l : list float) (k : Z) (b : float) :
  Forall nan_or_finite l -> next_valid l = Some (k, b) ->
  0 < k /\ is_finite b = true.
Proof.
  intros Hl. revert k b. induction Hl as [|x l Hx Hl IH]; intros k b;
    cbn [next_valid]; [discriminate|].
  destruct (is_nan x) eqn:Nx.
  - destruct (next_valid l) as [[k' v]|]; [|discriminate].
    intros E. injection E as <- <-.
    destruct (IH k' v eq_refl) as [Hk Hv]. split; [lia|exact Hv].
  - intros E. injection E as <- <-. split; [lia|].
    destruct Hx as [Hx|Hx]; congruence.
Qed.

Lemma interpolate_from_length (l : list float) (prev : option (Z * float)) :
  List.length (interpolate_from lerp prev l) = List.length l.
Proof.
  revert prev. induction l as [|x l IH]; intros prev; [reflexivity|].
  cbn [interpolate_from]. destruct (is_nan x); cbn [List.length];
    rewrite IH; reflexivity.
Qed.

(** Every gap is filled as soon as one cell is valid, before or after. *)
Lemma interpolate_from_no_nan (l : list float) (prev : option (Z * float)) :
  Forall nan_or_finite l ->
  match prev with
  | Some (i, a) => 0 < i /\ is_finite a = true
  | None => next_valid l <> None
  end ->
  Forall (fun v => is_nan v = false) (interpolate_from lerp prev l).
Proof.
  intros Hl. revert prev.
  induction Hl as [|x l Hx Hl IH]; intros prev Hp; [constructor|].
  cbn [interpolate_from]. destruct (is_nan x) eqn:Nx.
  - constructor.
    + destruct prev as [[i a]|].
      * destruct Hp as [Hi Ha].
        destruct (next_valid l) as [[k b]|] eqn:Nv.
        -- destruct (next_valid_spec l k b Hl Nv) as [Hk Hb].
           apply lerp_finite; try assumption. lia.
        -- apply finite_not_nan, Ha.
      * cbn [next_valid] in Hp. rewrite Nx in Hp.
        destruct (next_valid l) as [[k b]|] eqn:Nv; [|congruence].
        destruct (next_valid_spec l k b Hl Nv) as [_ Hb].
        apply finite_not_nan, Hb.
    + apply IH. destruct prev as [[i a]|].
      * destruct Hp as [Hi Ha]. split; [lia|exact Ha].
      * cbn [next_valid] in Hp. rewrite Nx in Hp.
        destruct (next_valid l) as [[k b]|]; congruence.
  - constructor; [exact Nx|].
    apply IH. split; [lia|]. destruct Hx as [Hx|Hx]; congruence.
Qed.

(** A column of the reindexed frame. *)
Section Column.

Variable df : frame.
Variable f : obs -> float.
Hypothesis f_finite : forall o, finite_obs o -> is_finite (f o) = true.
Hypothesis f_nan : f nan_obs = S754_nan.
Hypothesis df_finite : Forall (fun r => finite_obs (snd r)) df.

Lemma column_cells (ix : list timestamp) :
  Forall nan_or_finite (map (fun r => f (snd r))
                            (map (fun t => (t, loc t df)) ix)).
Proof.
  rewrite map_map. cbn [snd]. apply Forall_forall. intros v Hv.
  apply in_map_iff in Hv. destruct Hv as (t & <- & _).
  destruct (loc_cases t df) as [[_ E]|Hin].
  - left. rewrite E, f_nan. reflexivity.
  - right. apply f_finite.
    rewrite Forall_forall in df_finite. apply (df_finite _ Hin).
Qed.

Lemma column_interpolated (lo : timestamp) (tl : list timestamp) :
  In lo (index_of df) ->
  Forall (fun v => is_nan v = false)
         (interpolate lerp (map (fun r => f (snd r))
                                (map (fun t => (t, loc t df)) (lo :: tl)))).
Proof.
  intros Hlo. apply interpolate_from_no_nan; [apply column_cells|].
  cbn [map snd next_valid].
  assert (Hf : is_finite (f (loc lo df)) = true).
  { apply f_finite. rewrite Forall_forall in df_finite.
    apply (df_finite _ (loc_found lo df Hlo)). }
  rewrite (finite_not_nan _ Hf). discriminate.
Qed.

End Column.

End InterpolationProperties.

(** Two rows of the sheet carry the same date: [asfreq] refuses the
    frame and [load_cicalino_data] raises, although rows survive the
    drop. So the claim C5 fails on [dup_table]. *)
Lemma C5_duplicate_dates_counterexample :
  dropna dup_table <> [] /\
  load_cicalino_data lerp_left dup_table = Raise ValueError.
Proof.
  split; [discriminate|reflexivity].
Qed.

(** C5 (amended): when the rows that survive the drop are non-empty, carry
    pairwise distinct dates and finite values, series preparation returns
    a target series and an exogenous matrix over one index; this index is
    the daily range from the first to the last surviving date, each date
    one day after the one before (hence strictly increasing and without
    gap), and no cell of the three interpolated columns is NaN. *)
Theorem C5_series_preparation
        (lerp : float -> float -> Z -> Z -> float) (table : list table_row) :
  (forall a b i n,
      is_finite a = true -> is_finite b = true -> 0 < i < n ->
      is_nan (lerp a b i n) = false) ->
  dropna table <> [] ->
  NoDup (index_of (dropna table)) ->
  Forall (fun r => finite_obs (snd r)) (dropna table) ->
  exists y ex lo hi,
    load_cicalino_data lerp table = Ok (y, ex) /\
    index_min (index_of (dropna table)) = Some lo /\
    index_max (index_of (dropna table)) = Some hi /\
    index_of y = date_range lo hi /\
    index_of ex = index_of y /\
    index_of y <> [] /\
    daily (index_of y) /\
    Sorted Z.lt (index_of y) /\
    (forall t c, In (t, c) y -> is_nan c = false) /\
    (forall t te hu, In (t, (te, hu)) ex ->
                     is_nan te = false /\ is_nan hu = false).
Proof.
  intros Hlerp Hne Hnd Hfin.
  set (rows := dropna table) in *.
  pose proof (Preparation.sort_values_perm_index rows) as P.
  assert (Hlo0 : exists lo, index_min (index_of rows) = Some lo)
    by (destruct rows; [congruence|eexists; reflexivity]).
  assert (Hhi0 : exists hi, index_max (index_of rows) = Some hi)
    by (destruct rows; [congruence|eexists; reflexivity]).
  destruct Hlo0 as [lo Elo], Hhi0 as [hi Ehi].
  set (sorted := sort_values rows) in *.
  assert (Elo' : index_min (index_of sorted) = Some lo)
    by (eapply Preparation.index_min_perm; [apply Permutation_sym|]; eauto).
  assert (Ehi' : index_max (index_of sorted) = Some hi)
    by (eapply Preparation.index_max_perm; [apply Permutation_sym|]; eauto).
  assert (Hdup : has_duplicates (index_of sorted) = false).
  { apply Preparation.has_duplicates_NoDup.
    eapply Permutation_NoDup; [apply Permutation_sym, P|exact Hnd]. }
  assert (Hfin' : Forall (fun r => finite_obs (snd r)) sorted).
  { eapply Permutation_Forall;
      [apply Permutation_sym, Preparation.sort_values_perm|exact Hfin]. }
  assert (Hlo : In lo (index_of sorted))
    by (apply (Preparation.index_min_spec _ _ Elo')).
  destruct (Preparation.date_range_head lo hi) as [tl Er].
  set (df := map (fun t => (t, loc t sorted)) (date_range lo hi)).
  assert (Eas : asfreq_D sorted = Ok df).
  { unfold asfreq_D. rewrite Elo', Ehi', Hdup. reflexivity. }
  assert (Eidx : index_of df = date_range lo hi).
  { unfold df, index_of. rewrite map_map. cbn [fst]. apply map_id. }
  assert (Hlen : forall f : obs -> float,
             List.length (interpolate lerp (map (fun r => f (snd r)) df))
             = List.length (index_of df)).
  { intros f. unfold interpolate.
    rewrite interpolate_from_length. unfold index_of.
    rewrite !length_map. reflexivity. }
  assert (Hcol : forall f : obs -> float,
             (forall o, finite_obs o -> is_finite (f o) = true) ->
             f nan_obs = S754_nan ->
             Forall (fun v => is_nan v = false)
                    (interpolate lerp (map (fun r => f (snd r)) df))).
  { intros f Hf Hn. unfold df. rewrite Er.
    apply column_interpolated; assumption. }
  pose proof (Hcol temperature ltac:(intros o H; apply H) eq_refl) as Ht.
  pose proof (Hcol humidity ltac:(intros o H; apply H) eq_refl) as Hh.
  pose proof (Hcol captures ltac:(intros o H; apply H) eq_refl) as Hc.
  eexists _, _, lo, hi.
  split.
  { unfold load_cicalino_data. fold rows. fold sorted. rewrite Eas.
    cbn [bind]. reflexivity. }
  assert (Ey : index_of
                 (combine (index_of df)
                    (interpolate lerp (map (fun r => captures (snd r)) df)))
               = date_range lo hi).
  { rewrite Preparation.index_of_combine; [exact Eidx|apply Hlen]. }
  split; [exact Elo|]. split; [exact Ehi|]. split; [exact Ey|].
  split.
  { rewrite Ey, Preparation.index_of_combine; [exact Eidx|].
    rewrite length_combine, !Hlen. apply Nat.min_id. }
  rewrite Ey.
  split; [rewrite Er; discriminate|].
  split; [apply Preparation.daily_date_range|].
  split; [apply Preparation.daily_sorted, Preparation.daily_date_range|].
  split.
  - intros t c Hin. apply in_combine_r in Hin.
    rewrite Forall_forall in Hc. apply Hc, Hin.
  - intros t te hu Hin. apply in_combine_r in Hin.
    rewrite Forall_forall in Ht, Hh. split.
    + apply Ht. eapply in_combine_l, Hin.
    + apply Hh. eapply in_combine_r, Hin.
Qed.

(** A sheet with an unparseable date, a non-numeric cell and a gap of two
    days. *)
Lemma C5_series_preparation_witness :
  exists y ex lo hi,
    load_cicalino_data lerp_left gap_table = Ok (y, ex) /\
    index_min (index_of (dropna gap_table)) = Some lo /\
    index_max (index_of (dropna gap_table)) = Some hi /\
    index_of y = date_range lo hi /\
    index_of ex = index_of y /\
    index_of y <> [] /\
    daily (index_of y) /\
    Sorted Z.lt (index_of y) /\
    (forall t c, In (t, c) y -> is_nan c = false) /\
    (forall t te hu, In (t, (te, hu)) ex ->
                     is_nan te = false /\ is_nan hu = false).
Proof.
  apply C5_series_preparation.
  - intros a b i n Ha _ _. apply finite_not_nan, Ha.
  - discriminate.
  - repeat constructor; cbn; intuition discriminate.
  - repeat constructor.
Defined.

(** ** Interpretation messages *)

(** With [d = 0] and no p-value the first message is the generic one, not
    the one on AR/MA and exogenous terms: the claim C6 fails there. *)
Lemma C6_unavailable_pvalue_counterexample :
  hd_error (dynamic_pdq_interpretation 0 0 0 None) = Some (msg_d_generic 0) /\
  msg_d_generic 0 <> msg_d0_handled.
Proof.
  split; [reflexivity|]. vm_compute. discriminate.
Qed.

Lemma flt_not_fge (a b : float) : flt a b = true -> fge a b = false.
Proof.
  intros H. rewrite FloatOrder.fge_fle.
  destruct (fle b a) eqn:E; [|reflexivity].
  apply FloatOrder.fle_not_flt in E. congruence.
Qed.

Lemma fge_not_flt (a b : float) : fge a b = true -> flt a b = false.
Proof.
  rewrite FloatOrder.fge_fle. apply FloatOrder.fle_not_flt.
Qed.

(** C6 (amended): the first message follows [d] and the ADF p-value. With a
    p-value: [d = 0] and p < 0.05 gives "already stationary"; [d = 0] and
    p >= 0.05 gives "handled by AR/MA or the exogenous terms"; [d >= 1] and
    p >= 0.05 gives "differencing applied"; [d >= 1] and p < 0.05 gives
    "the model prefers to difference". Without a p-value, for every [d],
    it is the generic message on the selected degree of differencing. *)
Theorem C6_d_interpretation (p d q : Z) (adf_p : option float) :
  let first := hd_error (dynamic_pdq_interpretation p d q adf_p) in
  (forall pv, d = 0 -> adf_p = Some pv -> flt pv c0_05 = true ->
              first = Some msg_d0_stationary) /\
  (forall pv, d = 0 -> adf_p = Some pv -> fge pv c0_05 = true ->
              first = Some msg_d0_handled) /\
  (forall pv, 1 <= d -> adf_p = Some pv -> fge pv c0_05 = true ->
              first = Some (msg_d_differencing d)) /\
  (forall pv, 1 <= d -> adf_p = Some pv -> flt pv c0_05 = true ->
              first = Some (msg_d_prefers d)) /\
  (adf_p = None -> first = Some (msg_d_generic d)).
Proof.
  cbn [dynamic_pdq_interpretation hd_error]. unfold d_message.
  repeat split.
  - intros pv -> -> H. cbn. rewrite H. reflexivity.
  - intros pv -> -> H. cbn. rewrite (fge_not_flt _ _ H). reflexivity.
  - intros pv Hd -> H.
    destruct (Z.eqb_spec d 0) as [E|_]; [lia|].
    destruct (Z.geb_spec d 1) as [_|N]; [|lia]. rewrite H. reflexivity.
  - intros pv Hd -> H.
    destruct (Z.eqb_spec d 0) as [E|_]; [lia|].
    destruct (Z.geb_spec d 1) as [_|N]; [|lia].
    rewrite (flt_not_fge _ _ H). reflexivity.
  - intros ->. destruct (d =? 0), (d >=? 1); reflexivity.
Qed.

Lemma C6_d_interpretation_witness :
  hd_error (dynamic_pdq_interpretation 1 0 2 (Some c0_5)) = Some msg_d0_handled /\
  hd_error (dynamic_pdq_interpretation 1 1 2 (Some c0_5))
  = Some (msg_d_differencing 1) /\
  hd_error (dynamic_pdq_interpretation 3 1 0 None) = Some (msg_d_generic 1).
Proof.
  split; [|split].
  - apply (proj1 (proj2 (C6_d_interpretation 1 0 2 (Some c0_5))) c0_5);
      reflexivity.
  - apply (proj1 (proj2 (proj2 (C6_d_interpretation 1 1 2 (Some c0_5)))) c0_5);
      [lia|reflexivity|reflexivity].
  - apply (proj2 (proj2 (proj2 (proj2 (C6_d_interpretation 3 1 0 None)))));
      reflexivity.
Defined.

(** ** Fit-quality notes *)

Lemma feq_fle (a b : float) :
  feq a b = true -> fle a b = true /\ fle b a = true.
Proof.
  unfold feq, fle, SFeqb, SFleb. rewrite (FloatOrder.SFcompare_antisym a b).
  destruct (SFcompare a b) as [[]|]; cbn; intros H; try discriminate.
  split; reflexivity.
Qed.

Lemma half_below_one : flt c0_5 c1_0 = true.
Proof. reflexivity. Qed.

(** C7: without a usable standard deviation (absent, zero or NaN) the only
    note is the one on low natural variability. Otherwise the notes are one
    bucket message followed by the suggestion, and the bucket follows
    [ratio = rmse / y_std]: below 0.5 "contained", from 0.5 and below 1.0
    "in line", from 1.0 on "exceed"; a ratio equal to 0.5 is in the second
    bucket and a ratio equal to 1.0 in the third. *)
Theorem C7_fidelity_notes (rmse : float) (y_std : option float) :
  ((y_std = None \/
    exists s, y_std = Some s /\ (feq s zero = true \/ is_nan s = true)) ->
   gentle_fidelity_notes rmse y_std = [msg_low_variability]) /\
  (forall s,
      y_std = Some s -> feq s zero = false -> is_nan s = false ->
      let ratio := fdiv rmse s in
      exists m,
        gentle_fidelity_notes rmse y_std = [m; msg_suggestion] /\
        (flt ratio c0_5 = true -> m = msg_contained) /\
        (fle c0_5 ratio = true -> flt ratio c1_0 = true -> m = msg_in_line) /\
        (fle c1_0 ratio = true -> m = msg_exceed) /\
        (feq ratio c0_5 = true -> m = msg_in_line) /\
        (feq ratio c1_0 = true -> m = msg_exceed)).
Proof.
  split.
  - intros [->|(s & -> & H)]; [reflexivity|].
    cbn [gentle_fidelity_notes].
    destruct H as [-> | ->]; [reflexivity|]. rewrite orb_true_r. reflexivity.
  - intros s -> Hz Hn ratio. cbn [gentle_fidelity_notes].
    rewrite Hz, Hn. cbn [orb]. fold ratio.
    exists (ratio_message ratio). split; [reflexivity|].
    unfold ratio_message.
    assert (Hle : fle c0_5 c1_0 = true)
      by (apply FloatOrder.flt_fle, half_below_one).
    repeat split.
    + intros ->. reflexivity.
    + intros H1 H2. rewrite (FloatOrder.fle_not_flt _ _ H1), H2. reflexivity.
    + intros H.
      rewrite (FloatOrder.fle_not_flt _ _ H).
      rewrite (FloatOrder.fle_not_flt _ _
                 (FloatOrder.fle_trans _ _ _ Hle H)).
      reflexivity.
    + intros H. destruct (feq_fle _ _ H) as [H1 H2].
      rewrite (FloatOrder.fle_not_flt _ _ H2).
      rewrite (FloatOrder.fle_flt_trans _ _ _ H1 half_below_one).
      reflexivity.
    + intros H. destruct (feq_fle _ _ H) as [H1 H2].
      rewrite (FloatOrder.fle_not_flt _ _ H2).
      rewrite (FloatOrder.fle_not_flt _ _
                 (FloatOrder.fle_trans _ _ _ Hle H2)).
      reflexivity.
Qed.

(** An RMSE of 0.5 against a standard deviation of 1.0: the ratio is
    exactly 0.5. *)
Lemma C7_fidelity_notes_witness :
  gentle_fidelity_notes c0_5 (Some c1_0) = [msg_in_line; msg_suggestion] /\
  gentle_fidelity_notes c0_5 (Some zero) = [msg_low_variability].
Proof.
  split.
  - destruct (proj2 (C7_fidelity_notes c0_5 (Some c1_0)) c1_0
                    eq_refl eq_refl eq_refl) as (m & E & _ & _ & _ & H & _).
    rewrite E, (H eq_refl). reflexivity.
  - apply (proj1 (C7_fidelity_notes c0_5 (Some zero))).
    right. exists zero. split; [reflexivity|left; reflexivity].
Defined.

(** ** The page *)

Section PageProperties.

Context {R : Type}.
Variable lerp : float -> float -> Z -> Z -> float.
Variable fit : series -> exog -> order -> result R.
Variable aic : R -> float.
Variable get_forecast :
  R -> option timestamp * (float * float) -> result (float * float * float).
Variable fittedvalues : R -> series.
Variable mean_abs_error : list (float * float) -> float.
Variable root_mean_sq_error : list (float * float) -> float.
Variable sample_std : list float -> float.

(** The page as a function of the ADF oracle alone. *)
Local Abbreviation page adfuller table :=
  (main lerp adfuller fit aic get_forecast fittedvalues mean_abs_error
        root_mean_sq_error sample_std table []).

Lemma run_emit_all (l : list event) (log : list event) :
  emit_all l log = Done tt (log ++ l).
Proof.
  revert log. induction l as [|e l IH]; intros log; cbn [emit_all].
  - unfold ret. rewrite app_nil_r. reflexivity.
  - unfold ubind, emit. rewrite IH, <- app_assoc. reflexivity.
Qed.

Ltac step := cbv beta iota zeta.

Lemma page_view_adf_independent
      (adf1 adf2 : series -> result (float * float))
      (table : list table_row) :
  page_view (page adf1 table) = page_view (page adf2 table).
Proof.
  unfold main, ubind, emit, lift, ret, st_stop.
  destruct (load_cicalino_data lerp table) as [[y ex]|e]; [|reflexivity].
  step.
  destruct (adf1 y) as [[s1 p1]|e1], (adf2 y) as [[s2 p2]|e2]; step;
    (destruct (unpack_best (auto_arimax (fit y ex) aic))
      as [[[[[p d] q] a] [r|]]|e]; step; [| reflexivity | reflexivity]);
    (destruct (ex_future y ex) as [exf|e]; step; [|reflexivity]);
    (destruct (get_forecast r exf) as [[[m c0] c1]|e]; step; [|reflexivity]);
    (destruct (project m c0 c1) as [fc|e]; step; [|reflexivity]);
    rewrite !run_emit_all; cbn [page_view]; f_equal;
    unfold gentle_fidelity_notes, dynamic_pdq_interpretation;
    destruct (fgt (sample_std (map fst (df_eval y (fittedvalues r)))) zero);
    try destruct (feq _ zero || is_nan _);
    cbn [map app erase_adf]; reflexivity.
Qed.

Variable adfuller : series -> result (float * float).
Variable table : list table_row.
Variable y : series.
Variable ex : exog.
Hypothesis Hload : load_cicalino_data lerp table = Ok (y, ex).

(** When the search returns its failure value the page dies on the
    unpacking of [best], before the test [res is None]. *)
Lemma page_search_failure :
  auto_arimax (fit y ex) aic = best_init ->
  page adfuller table =
  Crashed TypeError
          ([Title title_text; Caption caption_text] ++ adf_events (adfuller y)).
Proof.
  intros Hbest.
  unfold main, ubind, emit, lift, ret, st_stop.
  rewrite Hload. step. rewrite Hbest.
  destruct (adfuller y) as [[s p]|e]; reflexivity.
Qed.

(** The complete page. *)
Lemma page_success (p d q : Z) (a : float) (r : R)
      (exf : option timestamp * (float * float)) (m c0 c1 : float)
      (fc : forecast_ints) :
  auto_arimax (fit y ex) aic = (Some (p, d, q), a, Some r) ->
  ex_future y ex = Ok exf ->
  get_forecast r exf = Ok (m, c0, c1) ->
  project m c0 c1 = Ok fc ->
  exists core,
    page adfuller table =
    Done tt (([Title title_text; Caption caption_text]
                ++ adf_events (adfuller y)) ++ core
             ++ Subheader interpretation_heading
             :: map (fun msg => Markdown (bullet msg))
                    (dynamic_pdq_interpretation p d q (adf_p_of (adfuller y)))
             ++ [Caption final_caption_text]) /\
    In (Metric label_forecast (IntValue (y_hat fc))) core /\
    In (Metric label_interval (IntervalValue (lower fc) (upper fc))) core.
Proof.
  intros Hbest Hexf Hfc Hproj.
  unfold main, ubind, emit, lift, ret, st_stop.
  rewrite Hload. step. rewrite Hbest. cbn [unpack_best].
  destruct (adfuller y) as [[s pv]|e]; step;
    rewrite Hexf; step; rewrite Hfc; step; rewrite Hproj; step;
    rewrite !run_emit_all; cbn [adf_events adf_p_of];
    rewrite <- !app_assoc; cbn [app];
    lazymatch goal with
    | |- exists core, Done tt ?L = _ /\ _ =>
        lazymatch L with
        | context [?c1 :: ?c2 :: ?c3 :: ?c4 :: ?c5 :: ?c6 :: ?c7
                       :: (?g ++ Subheader _ :: _)] =>
            exists (c1 :: c2 :: c3 :: c4 :: c5 :: c6 :: c7 :: g)
        end
    end;
    (split; [reflexivity|]);
    (split; [right; left; reflexivity|right; right; left; reflexivity]).
Qed.

End PageProperties.

(** ** The order search fails *)

(** C3: when every candidate fit raises, the search returns its failure
    value [(None, inf, None)]; [main] then dies with a [TypeError] on the
    unpacking [(p, d, q), aic, res = ...], and the message "no valid model
    found" is never written. *)
Theorem C3_total_failure_crashes {R : Type}
        (lerp : float -> float -> Z -> Z -> float)
        (adfuller : series -> result (float * float))
        (fit : series -> exog -> order -> result R) (aic : R -> float)
        (get_forecast : R -> option timestamp * (float * float)
                        -> result (float * float * float))
        (fittedvalues : R -> series)
        (mean_abs_error root_mean_sq_error : list (float * float) -> float)
        (sample_std : list float -> float)
        (table : list table_row) (y : series) (ex : exog) :
  load_cicalino_data lerp table = Ok (y, ex) ->
  (forall o, In o grid -> exists e, fit y ex o = Raise e) ->
  auto_arimax (fit y ex) aic = (None, inf, None) /\
  main lerp adfuller fit aic get_forecast fittedvalues mean_abs_error
       root_mean_sq_error sample_std table []
  = Crashed TypeError
            ([Title title_text; Caption caption_text] ++ adf_events (adfuller y)) /\
  ~ In (Error no_model_text)
       ([Title title_text; Caption caption_text] ++ adf_events (adfuller y)).
Proof.
  intros Hload Hall.
  assert (Hbest : auto_arimax (fit y ex) aic = best_init).
  { rewrite auto_arimax_search. apply search_fails_when_all_raise, Hall. }
  split; [exact Hbest|]. split.
  - eapply page_search_failure; eassumption.
  - destruct (adfuller y) as [[s p]|e]; cbn [adf_events app In];
      intuition discriminate.
Qed.

Lemma C3_total_failure_crashes_witness :
  exists log,
    main lerp_left (fun _ => Raise ValueError)
         (fun _ _ _ => Raise ValueError) (fun _ : unit => zero)
         (fun _ _ => Raise ValueError) (fun _ => []) (fun _ => zero)
         (fun _ => zero) (fun _ => zero) gap_table []
    = Crashed TypeError log /\
    ~ In (Error no_model_text) log.
Proof.
  eexists.
  refine (proj2 (C3_total_failure_crashes lerp_left (fun _ => Raise ValueError)
                   (fun _ _ _ => Raise ValueError) (fun _ : unit => zero)
                   (fun _ _ => Raise ValueError) (fun _ => []) (fun _ => zero)
                   (fun _ => zero) (fun _ => zero) gap_table _ _ eq_refl _)).
  intros o _. exists ValueError. reflexivity.
Defined.

(** ** The ADF test raises *)

(** C8: when [adfuller] raises, the exception is caught and [adf_p] is
    [None]. Whatever the ADF step returns or raises, the page has the same
    outcome and the same content apart from what it says of the test (the
    statistic line or the notice, and the bullet on [d]): grid, selected
    model and forecast do not depend on it. When search and forecast
    succeed the page is complete: the notice that the test is unavailable,
    the forecast, and the interpretation of [(p, d, q)] computed with the
    p-value absent. *)
Theorem C8_adf_error_not_fatal {R : Type}
        (lerp : float -> float -> Z -> Z -> float)
        (adfuller : series -> result (float * float))
        (fit : series -> exog -> order -> result R) (aic : R -> float)
        (get_forecast : R -> option timestamp * (float * float)
                        -> result (float * float * float))
        (fittedvalues : R -> series)
        (mean_abs_error root_mean_sq_error : list (float * float) -> float)
        (sample_std : list float -> float)
        (table : list table_row) (y : series) (ex : exog) (e : exn) :
  load_cicalino_data lerp table = Ok (y, ex) ->
  adfuller y = Raise e ->
  (forall adfuller',
      page_view (main lerp adfuller' fit aic get_forecast fittedvalues
                      mean_abs_error root_mean_sq_error sample_std table [])
      = page_view (main lerp adfuller fit aic get_forecast fittedvalues
                        mean_abs_error root_mean_sq_error sample_std table [])) /\
  (forall p d q a r exf m c0 c1 fc,
      auto_arimax (fit y ex) aic = (Some (p, d, q), a, Some r) ->
      ex_future y ex = Ok exf ->
      get_forecast r exf = Ok (m, c0, c1) ->
      project m c0 c1 = Ok fc ->
      exists core,
        main lerp adfuller fit aic get_forecast fittedvalues
             mean_abs_error root_mean_sq_error sample_std table []
        = Done tt ([Title title_text; Caption caption_text;
                    Info adf_unavailable_text] ++ core
                   ++ Subheader interpretation_heading
                   :: map (fun msg => Markdown (bullet msg))
                          (dynamic_pdq_interpretation p d q None)
                   ++ [Caption final_caption_text]) /\
        In (Metric label_forecast (IntValue (y_hat fc))) core /\
        In (Metric label_interval (IntervalValue (lower fc) (upper fc))) core).
Proof.
  intros Hload Hadf. split.
  - intros adfuller'. apply page_view_adf_independent.
  - intros p d q a r exf m c0 c1 fc Hbest Hexf Hfc Hproj.
    destruct (page_success lerp fit aic get_forecast fittedvalues
                mean_abs_error root_mean_sq_error sample_std adfuller
                table y ex Hload p d q a r exf m c0 c1 fc
                Hbest Hexf Hfc Hproj) as (core & E & H1 & H2).
    rewrite Hadf in E. cbn [adf_events adf_p_of app] in E.
    exists core. repeat split; assumption.
Qed.

Lemma C8_adf_error_not_fatal_witness :
  exists core,
    main lerp_left (fun _ => Raise ValueError) (fun _ _ => fit_tie) aic_id
         (fun _ _ => Ok (fm0_5, f1_5, fm2_5)) (fun _ => [])
         (fun _ => zero) (fun _ => zero) (fun _ => zero) gap_table []
    = Done tt ([Title title_text; Caption caption_text;
                Info adf_unavailable_text] ++ core
               ++ Subheader interpretation_heading
               :: map (fun msg => Markdown (bullet msg))
                      (dynamic_pdq_interpretation 1 0 0 None)
               ++ [Caption final_caption_text]) /\
    In (Metric label_forecast (IntValue 0)) core /\
    In (Metric label_interval (IntervalValue 0 2)) core.
Proof.
  assert (E : auto_arimax fit_tie aic_id = (Some (1, 0, 0), f1_5, Some f1_5))
    by (vm_compute; reflexivity).
  refine (proj2 (C8_adf_error_not_fatal lerp_left (fun _ => Raise ValueError)
                   (fun _ _ => fit_tie) aic_id
                   (fun _ _ => Ok (fm0_5, f1_5, fm2_5)) (fun _ => [])
                   (fun _ => zero) (fun _ => zero) (fun _ => zero)
                   gap_table _ _ ValueError eq_refl eq_refl)
                1 0 0 f1_5 f1_5 _ fm0_5 f1_5 fm2_5 (mkForecast 0 0 2)
                E eq_refl eq_refl eq_refl).
Defined.

(** ** The exogenous row of the forecast *)

Lemma sorted_last_max (ix : list Z) (t : Z) :
  Sorted Z.lt (ix ++ [t]) -> forall x, In x (ix ++ [t]) -> x <= t.
Proof.
  intros S. apply Sorted_StronglySorted in S; [|intros a b c; lia].
  induction ix as [|a ix IH]; cbn [app] in *.
  - intros x [<-|[]]. lia.
  - apply StronglySorted_inv in S. destruct S as [S F].
    intros x [<-|Hx]; [|apply IH; assumption].
    rewrite Forall_forall in F.
    assert (a < t) by (apply F, in_or_app; right; left; reflexivity). lia.
Qed.

Lemma index_max_sorted (ix : list Z) (t : Z) :
  Sorted Z.lt (ix ++ [t]) -> index_max (ix ++ [t]) = Some t.
Proof.
  intros S.
  destruct (index_max (ix ++ [t])) as [hi|] eqn:E.
  - destruct (Preparation.index_max_spec _ _ E) as [Hin Hle].
    f_equal. apply Z.le_antisymm.
    + apply (sorted_last_max ix t S), Hin.
    + apply Hle, in_or_app. right. left. reflexivity.
  - destruct ix; discriminate.
Qed.

(** C9: the exogenous row given to the one-step forecast carries the
    temperature and the humidity of the last row of the exogenous matrix,
    unchanged, and is indexed one day after the last observed day. *)
Theorem C9_persistence (y : series) (ex : exog) :
  index_of ex = index_of y -> Sorted Z.lt (index_of y) -> ex <> [] ->
  exists ex0 last_day temp hum,
    ex = ex0 ++ [(last_day, (temp, hum))] /\
    index_max (index_of y) = Some last_day /\
    ex_future y ex = Ok (Some (last_day + DAY), (temp, hum)).
Proof.
  intros Hix Hs Hne.
  destruct (exists_last Hne) as (ex0 & [last_day [temp hum]] & ->).
  exists ex0, last_day, temp, hum.
  assert (Hmax : index_max (index_of y) = Some last_day).
  { rewrite <- Hix in *. unfold index_of in *. rewrite map_app in *.
    cbn [map fst] in *. apply index_max_sorted, Hs. }
  split; [reflexivity|]. split; [exact Hmax|].
  unfold ex_future, next_day. rewrite rev_app_distr. cbn [rev app snd].
  rewrite Hmax. reflexivity.
Qed.

Lemma C9_persistence_witness :
  exists ex0 last_day temp hum,
    [(0, (c1_0, c0_5)); (DAY, (f1_5, c0_5))] = ex0 ++ [(last_day, (temp, hum))] /\
    index_max (index_of [(0, c1_0); (DAY, f3_0)]) = Some last_day /\
    ex_future [(0, c1_0); (DAY, f3_0)] [(0, (c1_0, c0_5)); (DAY, (f1_5, c0_5))]
    = Ok (Some (last_day + DAY), (temp, hum)).
Proof.
  apply C9_persistence.
  - reflexivity.
  - repeat constructor.
  - discriminate.
Defined.

(** * Further properties of the forecast page *)

(** ** The projection on any float *)

Lemma SFcompare_nan_r (x : float) : SFcompare x S754_nan = None.
Proof. destruct x; reflexivity. Qed.

(** If the projection returns, nothing infinite or NaN reached [round]. *)
Lemma project_ok_inputs (y_hat_raw conf0 conf1 : float) (fc : forecast_ints) :
  project y_hat_raw conf0 conf1 = Ok fc ->
  is_finite y_hat_raw = true /\ is_finite conf0 = true /\
  (is_finite conf1 = true \/ is_nan conf1 = true).
Proof.
  unfold project, py_min, py_max, flt, fgt, SFltb. intros H.
  destruct y_hat_raw as [sy|sy| |sy my ey]; try discriminate H;
    (split; [reflexivity|]);
    destruct conf0 as [s0|s0| |s0 m0 e0], conf1 as [s1|s1| |s1 m1 e1];
    cbn [SFcompare] in H;
    try (split; [reflexivity|auto]);
    try (destruct s0; discriminate H);
    try (destruct s1; discriminate H);
    try (destruct s0, s1; discriminate H);
    try discriminate H.
Qed.



Lemma project_nan_second (y c0 : float) :
  is_finite y = true -> is_finite c0 = true ->
  project y c0 S754_nan
  = Ok (mkForecast (clamp0 (rnd y)) (clamp0 (rnd c0)) (clamp0 (rnd c0))).
Proof.
  intros Fy F0. unfold project, py_min, py_max, flt, fgt, SFltb.
  change (SFcompare S754_nan c0) with (@None comparison). cbv iota.
  rewrite (Rounding.py_round_finite y Fy), (Rounding.py_round_finite c0 F0).
  reflexivity.
Qed.

Lemma project_nan_first (y c1 : float) :
  is_finite y = true -> project y S754_nan c1 = Raise ValueError.
Proof.
  intros Fy. unfold project, py_min, py_max, flt, fgt, SFltb.
  rewrite SFcompare_nan_r. cbv iota.
  rewrite (Rounding.py_round_finite y Fy). reflexivity.
Qed.

(** X2: a NaN bound is treated differently by its position. A NaN second
    bound is dropped without notice and both displayed bounds are the
    rounded, clamped first bound; a NaN first bound makes [round] raise
    [ValueError]. *)
Theorem X2_project_nan_bound (y c0 c1 : float) :
  is_finite y = true ->
  (is_finite c0 = true ->
   project y c0 S754_nan
   = Ok (mkForecast (clamp0 (rnd y)) (clamp0 (rnd c0)) (clamp0 (rnd c0)))) /\
  project y S754_nan c1 = Raise ValueError.
Proof.
  intros Fy. split.
  - intros F0. apply project_nan_second; assumption.
  - apply project_nan_first, Fy.
Qed.

Lemma X2_project_nan_bound_witness :
  project fm0_5 f2_5 S754_nan = Ok (mkForecast 0 2 2) /\
  project fm0_5 S754_nan f2_5 = Raise ValueError.
Proof.
  destruct (X2_project_nan_bound fm0_5 f2_5 f2_5 eq_refl) as [H1 H2].
  split; [exact (H1 eq_refl)|exact H2].
Defined.

(** X3: whenever the projection returns on well-formed floats, also with
    a NaN second bound, the three counts are at least 0 and
    [lower <= upper]. *)
Theorem X3_project_counts_whenever_ok (y c0 c1 : float) (fc : forecast_ints) :
  is_binary64 c0 = true -> is_binary64 c1 = true ->
  project y c0 c1 = Ok fc ->
  0 <= y_hat fc /\ 0 <= lower fc /\ lower fc <= upper fc.
Proof.
  intros B0 B1 H.
  destruct (project_ok_inputs y c0 c1 fc H) as (Fy & F0 & [F1|N1]).
  - rewrite (project_finite y c0 c1 Fy B0 F0 B1 F1) in H.
    injection H as <-. cbn [y_hat lower upper]. unfold clamp0. lia.
  - destruct c1; try discriminate N1.
    rewrite (project_nan_second y c0 Fy F0) in H.
    injection H as <-. cbn [y_hat lower upper]. unfold clamp0. lia.
Qed.

Lemma X3_project_counts_whenever_ok_witness :
  0 <= y_hat (mkForecast 0 2 2) /\ 0 <= lower (mkForecast 0 2 2) /\
  lower (mkForecast 0 2 2) <= upper (mkForecast 0 2 2).
Proof.
  apply (X3_project_counts_whenever_ok fm0_5 f2_5 S754_nan); reflexivity.
Defined.

(** ** Rounding error *)

Lemma round_half_even_bounds (q : Q) :
  (inject_Z (round_half_even q) - (1 # 2) <= q)%Q /\
  (q <= inject_Z (round_half_even q) + (1 # 2))%Q.
Proof.
  unfold round_half_even, Qle. destruct q as [n d].
  cbn [Qnum Qden Qplus Qminus Qopp inject_Z].
  pose proof (Z.div_mod n (Zpos d) ltac:(lia)) as E.
  pose proof (Z.mod_pos_bound n (Zpos d) ltac:(lia)) as B.
  remember (n / Zpos d) as f. remember (n mod Zpos d) as r.
  remember (Zpos d) as a. assert (Ha : 0 < a) by (subst a; lia).
  clear Heqf Heqr Heqa. subst n.
  destruct (Z.compare_spec (2 * r) a); [destruct (Z.even f)| |];
    split; nia.
Qed.

Lemma project_ok_y_hat (y c0 c1 : float) (fc : forecast_ints) :
  project y c0 c1 = Ok fc ->
  is_finite y = true /\ y_hat fc = clamp0 (rnd y).
Proof.
  intros H.
  destruct (project_ok_inputs y c0 c1 fc H) as (Fy & _ & _).
  split; [exact Fy|].
  unfold project in H. rewrite (Rounding.py_round_finite y Fy) in H.
  cbn [bind] in H.
  destruct (py_round (py_min c0 c1)); [|discriminate H].
  destruct (py_round (py_max c0 c1)); [|discriminate H].
  cbn [bind] in H. injection H as <-. reflexivity.
Qed.

(** X4: the displayed forecast is the integer nearest to the raw mean when
    the raw mean is not negative (it lies within one half of it), and it is
    0 when the raw mean is not positive. *)
Theorem X4_forecast_within_half (y c0 c1 : float) (fc : forecast_ints) :
  project y c0 c1 = Ok fc ->
  ((0 <= F2Q y)%Q ->
   (inject_Z (y_hat fc) - (1 # 2) <= F2Q y)%Q /\
   (F2Q y <= inject_Z (y_hat fc) + (1 # 2))%Q) /\
  ((F2Q y <= 0)%Q -> y_hat fc = 0).
Proof.
  intros H. destruct (project_ok_y_hat y c0 c1 fc H) as [_ ->].
  destruct (round_half_even_bounds (F2Q y)) as [Lo Hi]. fold (rnd y) in Lo, Hi.
  unfold clamp0, Qle in *. destruct (F2Q y) as [n d].
  cbn [Qnum Qden Qplus Qminus Qopp inject_Z] in *.
  split.
  - intros Hn. assert (0 <= rnd y) by nia.
    rewrite Z.max_r by assumption. split; assumption.
  - intros Hn. assert (rnd y <= 0) by nia. lia.
Qed.

Lemma X4_forecast_within_half_witness :
  ((0 <= F2Q f2_5)%Q ->
   (inject_Z 2 - (1 # 2) <= F2Q f2_5)%Q /\ (F2Q f2_5 <= inject_Z 2 + (1 # 2))%Q) /\
  ((F2Q f2_5 <= 0)%Q -> 2 = 0).
Proof.
  apply (X4_forecast_within_half f2_5 c0_5 f1_5 (mkForecast 2 0 2)).
  reflexivity.
Defined.

(** X5: the displayed forecast is monotone in the raw mean: a raw mean
    that compares [<=] another never gives the larger count. *)
Theorem X5_forecast_monotone (y1 y2 c0 c1 c0' c1' : float)
        (f1 f2 : forecast_ints) :
  is_binary64 y1 = true -> is_binary64 y2 = true ->
  project y1 c0 c1 = Ok f1 -> project y2 c0' c1' = Ok f2 ->
  fle y1 y2 = true ->
  y_hat f1 <= y_hat f2.
Proof.
  intros B1 B2 H1 H2 L.
  destruct (project_ok_y_hat _ _ _ _ H1) as [F1 ->].
  destruct (project_ok_y_hat _ _ _ _ H2) as [F2 ->].
  assert (Hz : F2Z y1 <= F2Z y2).
  { unfold fle, SFleb in L.
    rewrite (FloatValue.SFcompare_F2Z y1 y2 B1 B2 F1 F2) in L.
    destruct (Z.compare_spec (F2Z y1) (F2Z y2)); try lia; discriminate L. }
  pose proof (Rounding.rnd_mono y1 y2 B1 B2 Hz). unfold clamp0. lia.
Qed.

Lemma X5_forecast_monotone_witness :
  y_hat (mkForecast 0 0 2) <= y_hat (mkForecast 2 0 2).
Proof.
  apply (X5_forecast_monotone fm0_5 f2_5 c0_5 f1_5 c0_5 f1_5); reflexivity.
Defined.

(** ** More on the order search *)

Section SearchShape.

Context {R : Type}.
Variable fit : order -> result R.
Variable aic : R -> float.

(** The search returns its starting value or a candidate with its own
    results and score. *)
Lemma search_shape (l : list order) :
  search fit aic l = best_init \/
  exists o a r,
    search fit aic l = (Some o, a, Some r) /\
    In o l /\ fit o = Ok r /\ a = aic r /\ flt a inf = true.
Proof.
  destruct (search fit aic l) as [[[o|] a] res] eqn:E.
  - right.
    destruct (search_returns fit aic l o a res E)
      as (r & l1 & l2 & -> & Ho & Ha & Hinf & Hl & _).
    exists o, a, r. repeat split; try assumption.
    subst l. apply in_or_app. right. left. reflexivity.
  - left. pose proof (search_inv_search fit aic l) as Inv. rewrite E in Inv.
    destruct res; cbn [search_inv] in Inv; [destruct Inv|].
    destruct Inv as [-> _]. reflexivity.
Qed.

(** The least score does not depend on the order of the visit. *)
Lemma search_score_perm (l l' : list order) (o o' : order) (a a' : float)
      (res res' : option R) :
  Permutation l l' ->
  search fit aic l = (Some o, a, res) ->
  search fit aic l' = (Some o', a', res') ->
  fle a a' = true.
Proof.
  intros P E E'.
  destruct (search_returns fit aic l o a res E)
    as (r & l1 & l2 & _ & Ho & Ha & Hinf & Hl & H1 & H2).
  destruct (search_returns fit aic l' o' a' res' E')
    as (r' & l1' & l2' & _ & Ho' & Ha' & Hinf' & Hl' & _ & _).
  destruct (FloatOrder.flt_not_nan _ _ Hinf) as [Na _].
  destruct (FloatOrder.flt_not_nan _ _ Hinf') as [Na' _].
  assert (Hin : In o' l).
  { eapply Permutation_in; [apply Permutation_sym, P|].
    subst l'. apply in_or_app. right. left. reflexivity. }
  rewrite Hl in Hin. apply in_app_or in Hin. destruct Hin as [Hin|[Hin|Hin]].
  - destruct (H1 o' r' Hin Ho') as [N|L]; [congruence|].
    rewrite <- Ha' in L. apply FloatOrder.flt_fle, L.
  - subst o'. rewrite Ho in Ho'. injection Ho' as <-. rewrite Ha'.
    rewrite <- Ha. apply FloatOrder.fle_refl, Na.
  - pose proof (H2 o' r' Hin Ho') as L. rewrite <- Ha' in L.
    apply FloatOrder.not_flt_fle; assumption.
Qed.

Lemma search_fails_perm (l l' : list order) :
  Permutation l l' ->
  search fit aic l = best_init -> search fit aic l' = best_init.
Proof.
  intros P E. apply search_fails_iff. intros c rc Hin Hc.
  apply (proj1 (search_fails_iff fit aic l) E c rc); [|assumption].
  eapply Permutation_in; [apply Permutation_sym, P|exact Hin].
Qed.

End SearchShape.

(** X6: a candidate whose fit raises changes nothing: the search over the
    grid returns what the search over the grid without that candidate
    returns. *)
Theorem X6_failed_fit_is_skipped {R : Type} (fit : order -> result R)
        (aic : R -> float) (l1 l2 : list order) (c : order) (e : exn) :
  grid = l1 ++ c :: l2 -> fit c = Raise e ->
  auto_arimax fit aic = search fit aic (l1 ++ l2).
Proof.
  intros Hg Hc. rewrite auto_arimax_search, Hg.
  apply (search_skips_failed_fit fit aic l1 l2 c e Hc).
Qed.

Lemma X6_failed_fit_is_skipped_witness :
  auto_arimax fit_tie aic_id = search fit_tie aic_id ([] ++ tl grid).
Proof.
  apply (X6_failed_fit_is_skipped fit_tie aic_id [] (tl grid) (0, 0, 0)
                                  ValueError); reflexivity.
Defined.

(** X7: the search returns its failure value [(None, inf, None)] exactly
    when no candidate fits with a score strictly below [+inf]; a fit whose
    score is [+inf] or NaN is never retained, and a retained score is a
    number strictly below [+inf]. *)
Theorem X7_failure_value_iff {R : Type} (fit : order -> result R)
        (aic : R -> float) :
  (auto_arimax fit aic = (None, inf, None) <->
   forall c rc, In c grid -> fit c = Ok rc -> flt (aic rc) inf = false) /\
  (forall o a res,
      auto_arimax fit aic = (Some o, a, res) ->
      flt a inf = true /\ is_nan a = false /\
      exists r, res = Some r /\ fit o = Ok r /\ a = aic r).
Proof.
  rewrite auto_arimax_search. split.
  - apply (search_fails_iff fit aic grid).
  - intros o a res E.
    destruct (search_returns fit aic grid o a res E)
      as (r & l1 & l2 & -> & Ho & Ha & Hinf & _).
    split; [exact Hinf|]. split; [apply (FloatOrder.flt_not_nan _ _ Hinf)|].
    exists r. repeat split; assumption.
Qed.

(** On [fit_nan] without its one numeric score, the only fit that does not
    raise scores NaN, and the search fails. *)
Lemma X7_failure_value_iff_witness :
  auto_arimax (fun o => match fit_nan o with
                        | Ok r => if is_nan r then Ok r else Raise ValueError
                        | Raise e => Raise e
                        end) aic_id = (None, inf, None) /\
  flt f1_5 inf = true.
Proof.
  split.
  - apply (proj1 (X7_failure_value_iff _ aic_id)).
    intros [[p d] q] rc _.
    destruct p as [|[| |]|]; try discriminate;
      destruct d as [|[| |]|]; try discriminate;
      destruct q as [|[| |]|]; try discriminate;
      cbn; try discriminate.
    intros E. injection E as <-. reflexivity.
  - assert (E : auto_arimax fit_tie aic_id = (Some (1, 0, 0), f1_5, Some f1_5))
      by (vm_compute; reflexivity).
    apply (proj2 (X7_failure_value_iff fit_tie aic_id) _ _ _ E).
Defined.

(** X8: the outcome of the search does not depend on the order in which
    the candidates are visited, up to ties: over two orderings of the same
    candidates the search fails on both or on neither, and the two
    retained scores compare equal. *)
Theorem X8_search_order_independent {R : Type} (fit : order -> result R)
        (aic : R -> float) (l l' : list order) :
  Permutation l l' ->
  (search fit aic l = best_init <-> search fit aic l' = best_init) /\
  (forall o a res o' a' res',
      search fit aic l = (Some o, a, res) ->
      search fit aic l' = (Some o', a', res') ->
      feq a a' = true).
Proof.
  intros P. split.
  - split; apply search_fails_perm; [exact P|apply Permutation_sym, P].
  - intros o a res o' a' res' E E'.
    pose proof (search_score_perm fit aic l l' o o' a a' res res' P E E') as L1.
    pose proof (search_score_perm fit aic l' l o' o a' a res' res
                  (Permutation_sym P) E' E) as L2.
    apply FloatOrder.fle_not_flt in L2.
    unfold fle, SFleb in L1. unfold flt, SFltb in L2. unfold feq, SFeqb.
    destruct (SFcompare a a') as [[]|]; congruence.
Qed.

(** The grid visited backwards: the tie at 1.5 goes to the other
    candidate, the score is the same. *)
Lemma X8_search_order_independent_witness :
  search fit_tie aic_id grid = (Some (1, 0, 0), f1_5, Some f1_5) /\
  search fit_tie aic_id (rev grid) = (Some (2, 1, 3), f1_5, Some f1_5) /\
  feq f1_5 f1_5 = true.
Proof.
  assert (E : search fit_tie aic_id grid = (Some (1, 0, 0), f1_5, Some f1_5))
    by (vm_compute; reflexivity).
  assert (E' : search fit_tie aic_id (rev grid)
               = (Some (2, 1, 3), f1_5, Some f1_5))
    by (vm_compute; reflexivity).
  split; [exact E|]. split; [exact E'|].
  apply (proj2 (X8_search_order_independent fit_tie aic_id grid (rev grid)
                  (Permutation_rev grid)) _ _ _ _ _ _ E E').
Defined.

(** ** More on series preparation *)

Module PreparationMore.

Import Preparation.

Lemma has_duplicates_false_NoDup (ix : list Z) :
  has_duplicates ix = false -> NoDup ix.
Proof.
  induction ix as [|t ts IH]; cbn [has_duplicates]; intros H; [constructor|].
  apply orb_false_elim in H. destruct H as [H1 H2].
  constructor; [|apply IH, H2].
  intros Hin.
  assert (E : existsb (Z.eqb t) ts = true).
  { apply existsb_exists. exists t. split; [assumption|apply Z.eqb_refl]. }
  congruence.
Qed.

Lemma has_duplicates_perm (l l' : list Z) :
  Permutation l l' -> has_duplicates l = has_duplicates l'.
Proof.
  intros P.
  destruct (has_duplicates l) eqn:E, (has_duplicates l') eqn:E';
    try reflexivity.
  - apply has_duplicates_false_NoDup in E'.
    apply (Permutation_NoDup (Permutation_sym P)) in E'.
    apply has_duplicates_NoDup in E'. congruence.
  - apply has_duplicates_false_NoDup in E.
    apply (Permutation_NoDup P) in E.
    apply has_duplicates_NoDup in E. congruence.
Qed.

(** With distinct dates [loc] returns the one row of the date. *)
Lemma loc_unique (df : frame) (t : Z) (o : obs) :
  NoDup (index_of df) -> In (t, o) df -> loc t df = o.
Proof.
  induction df as [|[t' o'] df IH]; cbn [index_of map fst loc In];
    intros Hnd Hin; [destruct Hin|].
  apply NoDup_cons_iff in Hnd. destruct Hnd as [Hn Hnd].
  destruct (Z.eqb_spec t t') as [->|N].
  - destruct Hin as [E|Hin]; [congruence|].
    exfalso. apply Hn. change t' with (fst (t', o)).
    apply in_map, Hin.
  - destruct Hin as [E|Hin]; [congruence|]. apply IH; assumption.
Qed.

Lemma loc_perm (df df' : frame) (t : Z) :
  Permutation df df' -> NoDup (index_of df) -> loc t df = loc t df'.
Proof.
  intros P Hnd.
  assert (Hnd' : NoDup (index_of df')).
  { eapply Permutation_NoDup; [apply Permutation_map, P|exact Hnd]. }
  destruct (loc_cases t df') as [[Hn E]|Hin].
  - rewrite E. destruct (loc_cases t df) as [[_ E0]|Hin0]; [exact E0|].
    exfalso. apply Hn. change t with (fst (t, loc t df)).
    apply in_map. eapply Permutation_in; eauto.
  - apply loc_unique; [assumption|].
    eapply Permutation_in; [apply Permutation_sym, P|exact Hin].
Qed.

Lemma index_min_perm_eq (l l' : list Z) :
  Permutation l l' -> index_min l = index_min l'.
Proof.
  intros P. destruct (index_min l) as [lo|] eqn:E.
  - symmetry. eapply index_min_perm; eauto.
  - destruct l; [|discriminate]. apply Permutation_nil in P. subst l'.
    reflexivity.
Qed.

Lemma index_max_perm_eq (l l' : list Z) :
  Permutation l l' -> index_max l = index_max l'.
Proof.
  intros P. destruct (index_max l) as [hi|] eqn:E.
  - symmetry. eapply index_max_perm; eauto.
  - destruct l; [|discriminate]. apply Permutation_nil in P. subst l'.
    reflexivity.
Qed.

(** [asfreq] looks rows up by date: the order of the rows is immaterial. *)
Lemma asfreq_D_perm (df df' : frame) :
  Permutation df df' -> asfreq_D df = asfreq_D df'.
Proof.
  intros P.
  assert (Pi : Permutation (index_of df) (index_of df'))
    by apply Permutation_map, P.
  unfold asfreq_D.
  rewrite <- (index_min_perm_eq _ _ Pi), <- (index_max_perm_eq _ _ Pi),
    <- (has_duplicates_perm _ _ Pi).
  destruct (index_min (index_of df)) as [lo|]; [|reflexivity].
  destruct (index_max (index_of df)) as [hi|]; [|reflexivity].
  destruct (has_duplicates (index_of df)) eqn:D; [reflexivity|].
  f_equal. apply map_ext. intros t. f_equal.
  apply loc_perm; [exact P|]. apply has_duplicates_false_NoDup, D.
Qed.

Lemma date_range_In (lo hi t : Z) :
  lo <= t <= hi -> (t - lo) mod DAY = 0 -> In t (date_range lo hi).
Proof.
  intros [H1 H2] Hm. unfold date_range.
  apply in_map_iff. exists (Z.to_nat ((t - lo) / DAY)). split.
  - rewrite Z2Nat.id by (apply Z.div_pos; unfold DAY; lia).
    pose proof (Z.div_mod (t - lo) DAY ltac:(unfold DAY; lia)) as E.
    rewrite Hm in E. lia.
  - apply in_seq. split; [lia|].
    assert ((t - lo) / DAY <= (hi - lo) / DAY)
      by (apply Z.div_le_mono; unfold DAY; lia).
    assert (0 <= (t - lo) / DAY) by (apply Z.div_pos; unfold DAY; lia).
    lia.
Qed.

Section Keep.

Variable lerp : float -> float -> Z -> Z -> float.

(** Interpolation leaves a valid cell as it is. *)
Lemma combine_interpolate_keep (h : Z -> float) (ts : list Z) (t : Z) :
  In t ts -> is_nan (h t) = false ->
  forall prev,
    In (t, h t) (combine ts (interpolate_from lerp prev (map h ts))).
Proof.
  intros Hin Hn. induction ts as [|u ts IH]; [destruct Hin|].
  intros prev. cbn [map interpolate_from].
  destruct Hin as [->|Hin].
  - rewrite Hn. left. reflexivity.
  - destruct (is_nan (h u)); cbn [combine]; right; apply IH, Hin.
Qed.

Lemma combine2_interpolate_keep (h1 h2 : Z -> float) (ts : list Z) (t : Z) :
  In t ts -> is_nan (h1 t) = false -> is_nan (h2 t) = false ->
  forall p1 p2,
    In (t, (h1 t, h2 t))
       (combine ts (combine (interpolate_from lerp p1 (map h1 ts))
                            (interpolate_from lerp p2 (map h2 ts)))).
Proof.
  intros Hin N1 N2. induction ts as [|u ts IH]; [destruct Hin|].
  intros p1 p2. cbn [map interpolate_from].
  destruct Hin as [->|Hin].
  - rewrite N1, N2. left. reflexivity.
  - destruct (is_nan (h1 u)), (is_nan (h2 u)); cbn [combine]; right;
      apply IH, Hin.
Qed.

(** The result of series preparation on distinct dates. *)
Lemma load_distinct_dates (table : list table_row) (lo hi : Z) :
  NoDup (index_of (dropna table)) ->
  index_min (index_of (dropna table)) = Some lo ->
  index_max (index_of (dropna table)) = Some hi ->
  let sorted := sort_values (dropna table) in
  let ts := date_range lo hi in
  load_cicalino_data lerp table
  = Ok (combine ts (interpolate lerp (map (fun t => captures (loc t sorted)) ts)),
        combine ts
          (combine
             (interpolate lerp (map (fun t => temperature (loc t sorted)) ts))
             (interpolate lerp (map (fun t => humidity (loc t sorted)) ts)))).
Proof.
  intros Hnd Elo Ehi sorted ts.
  pose proof (sort_values_perm_index (dropna table)) as P. fold sorted in P.
  unfold load_cicalino_data, asfreq_D. fold sorted.
  rewrite (index_min_perm_eq _ _ P), (index_max_perm_eq _ _ P), Elo, Ehi.
  rewrite (has_duplicates_perm _ _ P), (has_duplicates_NoDup _ Hnd).
  cbn [bind]. fold ts. unfold index_of. rewrite !map_map. cbn [fst snd].
  rewrite map_id. reflexivity.
Qed.

End Keep.

End PreparationMore.

(** X9: series preparation does not alter what was observed. With distinct
    dates, every surviving row that lies a whole number of days after the
    first date is in the result with its own captures, temperature and
    humidity: interpolation only fills the days without a row. *)
Theorem X9_observed_values_kept
        (lerp : float -> float -> Z -> Z -> float) (table : list table_row)
        (t lo : Z) (o : obs) :
  NoDup (index_of (dropna table)) ->
  In (t, o) (dropna table) ->
  index_min (index_of (dropna table)) = Some lo ->
  (t - lo) mod DAY = 0 ->
  exists y ex,
    load_cicalino_data lerp table = Ok (y, ex) /\
    In (t, captures o) y /\
    In (t, (temperature o, humidity o)) ex.
Proof.
  intros Hnd Hin Elo Hm.
  assert (Hhi : exists hi, index_max (index_of (dropna table)) = Some hi)
    by (destruct (dropna table); [destruct Hin|eexists; reflexivity]).
  destruct Hhi as [hi Ehi].
  assert (Hti : In t (index_of (dropna table)))
    by (change t with (fst (t, o)); apply in_map, Hin).
  assert (Hr : In t (date_range lo hi)).
  { apply PreparationMore.date_range_In; [|exact Hm]. split.
    - apply (Preparation.index_min_spec _ _ Elo), Hti.
    - apply (Preparation.index_max_spec _ _ Ehi), Hti. }
  assert (Hloc : loc t (sort_values (dropna table)) = o).
  { apply PreparationMore.loc_unique.
    - eapply Permutation_NoDup;
        [apply Permutation_sym, Preparation.sort_values_perm_index|exact Hnd].
    - eapply Permutation_in;
        [apply Permutation_sym, Preparation.sort_values_perm|exact Hin]. }
  destruct (Preparation.dropna_not_nan table t o Hin) as (Nt & Nh & Nc).
  do 2 eexists. split.
  { apply (PreparationMore.load_distinct_dates lerp table lo hi Hnd Elo Ehi). }
  split.
  - rewrite <- Hloc at 1.
    apply (PreparationMore.combine_interpolate_keep lerp
             (fun t => captures (loc t (sort_values (dropna table))))
             (date_range lo hi) t Hr).
    cbv beta. rewrite Hloc. exact Nc.
  - rewrite <- Hloc at 1 2.
    apply (PreparationMore.combine2_interpolate_keep lerp
             (fun t => temperature (loc t (sort_values (dropna table))))
             (fun t => humidity (loc t (sort_values (dropna table))))
             (date_range lo hi) t Hr); cbv beta; rewrite Hloc; assumption.
Qed.

Lemma X9_observed_values_kept_witness :
  exists y ex,
    load_cicalino_data lerp_left gap_table = Ok (y, ex) /\
    In (3 * DAY, captures (mkObs f1_5 c0_5 f3_0)) y /\
    In (3 * DAY, (temperature (mkObs f1_5 c0_5 f3_0),
                  humidity (mkObs f1_5 c0_5 f3_0))) ex.
Proof.
  apply (X9_observed_values_kept lerp_left gap_table (3 * DAY) 0
                                 (mkObs f1_5 c0_5 f3_0)).
  - repeat constructor; cbn; intuition discriminate.
  - left. reflexivity.
  - reflexivity.
  - reflexivity.
Defined.

(** X10: the index of the result holds only dates a whole number of days
    after the first surviving date and not after the last one: a row taken
    at another time of day than the first is left out of the result. *)
Theorem X10_index_on_daily_grid
        (lerp : float -> float -> Z -> Z -> float) (table : list table_row)
        (y : series) (ex : exog) (lo hi : Z) :
  NoDup (index_of (dropna table)) ->
  index_min (index_of (dropna table)) = Some lo ->
  index_max (index_of (dropna table)) = Some hi ->
  load_cicalino_data lerp table = Ok (y, ex) ->
  forall t, In t (index_of y) ->
            (t - lo) mod DAY = 0 /\ lo <= t <= hi.
Proof.
  intros Hnd Elo Ehi H t Ht.
  rewrite (PreparationMore.load_distinct_dates lerp table lo hi Hnd Elo Ehi)
    in H.
  injection H as <- _.
  unfold index_of in Ht. apply in_map_iff in Ht.
  destruct Ht as ([t' v] & <- & Hin). apply in_combine_l in Hin.
  cbn [fst]. unfold date_range in Hin. apply in_map_iff in Hin.
  destruct Hin as (k & <- & Hk). apply in_seq in Hk.
  assert (Hlh : lo <= hi).
  { apply (Preparation.index_max_spec _ _ Ehi).
    apply (Preparation.index_min_spec _ _ Elo). }
  split.
  - replace (lo + Z.of_nat k * DAY - lo) with (Z.of_nat k * DAY) by lia.
    apply Z.mod_mul. unfold DAY. lia.
  - assert (HD : 0 < DAY) by reflexivity.
    pose proof (Z.mul_div_le (hi - lo) DAY HD) as Hd.
    assert (H0 : 0 <= (hi - lo) / DAY) by (apply Z.div_pos; lia).
    remember ((hi - lo) / DAY) as D.
    assert (Hk' : Z.of_nat k <= D) by lia.
    assert (H1 : Z.of_nat k * DAY <= D * DAY)
      by (apply Z.mul_le_mono_nonneg_r; lia).
    assert (H2 : 0 <= Z.of_nat k * DAY) by (apply Z.mul_nonneg_nonneg; lia).
    rewrite (Z.mul_comm DAY D) in Hd. lia.
Qed.

Lemma X10_index_on_daily_grid_witness :
  (2 * DAY - 0) mod DAY = 0 /\ 0 <= 2 * DAY <= 3 * DAY.
Proof.
  refine (X10_index_on_daily_grid lerp_left gap_table _ _ 0 (3 * DAY)
                                  _ eq_refl eq_refl eq_refl (2 * DAY) _).
  - repeat constructor; cbn; intuition discriminate.
  - right. right. left. reflexivity.
Defined.

(** X11: the result of series preparation does not depend on the order of
    the rows in the sheet. *)
Theorem X11_row_order_immaterial
        (lerp : float -> float -> Z -> Z -> float)
        (table table' : list table_row) :
  Permutation table table' ->
  load_cicalino_data lerp table = load_cicalino_data lerp table'.
Proof.
  intros P. unfold load_cicalino_data.
  rewrite (PreparationMore.asfreq_D_perm (sort_values (dropna table))
                                         (sort_values (dropna table'))).
  - reflexivity.
  - rewrite !Preparation.sort_values_perm. unfold dropna.
    apply Permutation_flat_map, P.
Qed.

Lemma X11_row_order_immaterial_witness :
  load_cicalino_data lerp_left gap_table
  = load_cicalino_data lerp_left (rev gap_table).
Proof.
  apply X11_row_order_immaterial, Permutation_rev.
Defined.

Lemma load_blank_sheet
      (lerp : float -> float -> Z -> Z -> float) (table : list table_row) :
  dropna table = [] -> load_cicalino_data lerp table = Ok ([], []).
Proof.
  intros E. unfold load_cicalino_data. rewrite E. reflexivity.
Qed.

(** ** More on the page *)

Lemma existsb_markdown (f : event -> bool) (l : list string) :
  (forall s, f (Markdown s) = false) ->
  existsb f (map (fun msg => Markdown (bullet msg)) l) = false.
Proof.
  intros H. induction l as [|m l IH]; cbn [map existsb]; [reflexivity|].
  rewrite H, IH. reflexivity.
Qed.

Lemma load_duplicate_dates
      (lerp : float -> float -> Z -> Z -> float) (table : list table_row) :
  has_duplicates (index_of (dropna table)) = true ->
  load_cicalino_data lerp table = Raise ValueError.
Proof.
  intros D.
  pose proof (Preparation.sort_values_perm_index (dropna table)) as P.
  unfold load_cicalino_data, asfreq_D.
  rewrite (PreparationMore.index_min_perm_eq _ _ P),
    (PreparationMore.index_max_perm_eq _ _ P),
    (PreparationMore.has_duplicates_perm _ _ P), D.
  destruct (index_of (dropna table)) as [|t ts]; [discriminate D|].
  reflexivity.
Qed.

Section PageMore.

Context {R : Type}.
Variable lerp : float -> float -> Z -> Z -> float.
Variable adfuller : series -> result (float * float).
Variable fit : series -> exog -> order -> result R.
Variable aic : R -> float.
Variable get_forecast :
  R -> option timestamp * (float * float) -> result (float * float * float).
Variable fittedvalues : R -> series.
Variable mean_abs_error : list (float * float) -> float.
Variable root_mean_sq_error : list (float * float) -> float.
Variable sample_std : list float -> float.

Local Abbreviation page table :=
  (main lerp adfuller fit aic get_forecast fittedvalues mean_abs_error
        root_mean_sq_error sample_std table []).

Ltac step := cbv beta iota zeta.

(** Unfold the page down to the first stage that can fail, on every
    path. *)
Ltac page_paths table :=
  unfold main, ubind, emit, lift, ret, st_stop;
  destruct (load_cicalino_data lerp table) as [[y ex]|e0] eqn:Hload; step;
  [ rewrite auto_arimax_search;
    destruct (search_shape (fit y ex) aic grid)
      as [Hs|(o & a & r & Hs & _ & _ & _ & _)];
    rewrite Hs;
    [ unfold best_init; cbn [unpack_best];
      destruct (adfuller y) as [[s pv]|e1]; step
    | destruct o as [[p d] q]; cbn [unpack_best];
      destruct (adfuller y) as [[s pv]|e1]; step;
      (destruct (ex_future y ex) as [exf|e2] eqn:Hexf; step;
       [ destruct (get_forecast r exf) as [[[m c0] c1]|e3] eqn:Hfc; step;
         [ destruct (project m c0 c1) as [fc|e4] eqn:Hproj; step;
           [ rewrite !run_emit_all | ]
         | ]
       | ]) ]
  | ].

(** X12: the page never takes the branch written for a failed search. It
    is never halted by [st.stop()] and never writes an [st.error]
    message: the search returns a results object whenever it returns an
    order, so [res is None] is false whenever line 116 is reached. *)
Theorem X12_page_never_stops (table : list table_row) :
  is_stopped (page table) = false /\
  existsb is_error_event (log_of (page table)) = false.
Proof.
  page_paths table; cbn [is_stopped log_of]; (split; [reflexivity|]);
    try reflexivity;
    rewrite !existsb_app;
    rewrite !existsb_markdown by reflexivity; reflexivity.
Qed.

(** X13: a forecast is shown whole or not at all: when the page dies on
    an exception, it has written no chart and no metric. *)
Theorem X13_no_partial_forecast (table : list table_row) (e : exn)
        (log : list event) :
  page table = Crashed e log ->
  existsb is_forecast_event log = false.
Proof.
  page_paths table; intros H; try discriminate H.
  all: injection H as _ <-; reflexivity.
Qed.

(** X14: on a sheet none of whose rows is complete the page never
    completes: it dies on the unpacking of the failed search
    ([TypeError]) or, if a model was fitted on the empty series, on
    [ex.iloc[-1]] ([IndexError]). *)
Theorem X14_blank_sheet_crashes (table : list table_row) :
  dropna table = [] ->
  exists log,
    page table = Crashed TypeError log \/ page table = Crashed IndexError log.
Proof.
  intros E. pose proof (load_blank_sheet lerp table E) as Hl.
  page_paths table; try discriminate Hl;
    injection Hl as -> ->;
    try (eexists; left; reflexivity);
    cbn in Hexf;
    first [discriminate Hexf
          |injection Hexf as <-; eexists; right; reflexivity].
Qed.

(** X15: when two surviving rows carry the same date the page dies with
    [ValueError] right after its title and caption, before the ADF test
    and the search. *)
Theorem X15_duplicate_dates_crash (table : list table_row) :
  has_duplicates (index_of (dropna table)) = true ->
  page table = Crashed ValueError [Title title_text; Caption caption_text].
Proof.
  intros D. unfold main, ubind, emit, lift, ret, st_stop.
  rewrite (load_duplicate_dates lerp table D). reflexivity.
Qed.

End PageMore.

Lemma X13_no_partial_forecast_witness :
  existsb is_forecast_event
          [Title title_text; Caption caption_text; Info adf_unavailable_text]
  = false.
Proof.
  refine (X13_no_partial_forecast lerp_left (fun _ => Raise ValueError)
            (fun _ _ _ => Raise ValueError) (fun _ : unit => zero)
            (fun _ _ => Raise ValueError) (fun _ => []) (fun _ => zero)
            (fun _ => zero) (fun _ => zero) gap_table TypeError _ _).
  vm_compute. reflexivity.
Defined.

Lemma X14_blank_sheet_crashes_witness :
  exists log,
    main lerp_left (fun _ => Raise ValueError) (fun _ _ => fit_tie) aic_id
         (fun _ _ => Ok (fm0_5, f1_5, fm2_5)) (fun _ => [])
         (fun _ => zero) (fun _ => zero) (fun _ => zero) blank_table []
    = Crashed TypeError log \/
    main lerp_left (fun _ => Raise ValueError) (fun _ _ => fit_tie) aic_id
         (fun _ _ => Ok (fm0_5, f1_5, fm2_5)) (fun _ => [])
         (fun _ => zero) (fun _ => zero) (fun _ => zero) blank_table []
    = Crashed IndexError log.
Proof.
  apply X14_blank_sheet_crashes. reflexivity.
Defined.

Lemma X15_duplicate_dates_crash_witness :
  main lerp_left (fun _ => Raise ValueError) (fun _ _ => fit_tie) aic_id
       (fun _ _ => Ok (fm0_5, f1_5, fm2_5)) (fun _ => [])
       (fun _ => zero) (fun _ => zero) (fun _ => zero) dup_table []
  = Crashed ValueError [Title title_text; Caption caption_text].
Proof.
  apply X15_duplicate_dates_crash. reflexivity.
Defined.

(** ** More on the notes and the interpretation *)

Lemma fgt_zero_usable (sd : float) :
  fgt sd zero = true -> feq sd zero = false /\ is_nan sd = false.
Proof.
  unfold fgt, feq, SFeqb. destruct (SFcompare sd zero) as [[]|] eqn:E;
    try discriminate.
  intros _. split; [reflexivity|].
  apply (FloatOrder.SFcompare_some _ _ _ E).
Qed.

(** X17: as [main] calls it, with [y_std] set to the standard deviation
    when this is [> 0] and to [None] otherwise, [gentle_fidelity_notes]
    gives the low-variability note exactly when the standard deviation is
    not [> 0] (zero, negative or NaN), and the bucket of the ratio followed
    by the suggestion otherwise: its own tests on 0 and NaN never decide. *)
Theorem X17_notes_as_called (rmse sd : float) :
  gentle_fidelity_notes rmse (if fgt sd zero then Some sd else None)
  = if fgt sd zero
    then [ratio_message (fdiv rmse sd); msg_suggestion]
    else [msg_low_variability].
Proof.
  destruct (fgt sd zero) eqn:E; [|reflexivity].
  destruct (fgt_zero_usable sd E) as [Hz Hn].
  cbn [gentle_fidelity_notes]. rewrite Hz, Hn. reflexivity.
Qed.

(** X18: a ratio that is NaN (an RMSE that is NaN, or an infinite RMSE over
    an infinite standard deviation) falls through both comparisons and
    gives the message of the last bucket, "exceed". *)
Theorem X18_nan_ratio_exceeds (rmse s : float) :
  feq s zero = false -> is_nan s = false ->
  is_nan (fdiv rmse s) = true ->
  gentle_fidelity_notes rmse (Some s) = [msg_exceed; msg_suggestion].
Proof.
  intros Hz Hn Hr. cbn [gentle_fidelity_notes]. rewrite Hz, Hn. cbn [orb].
  unfold ratio_message, flt, SFltb.
  rewrite !FloatOrder.SFcompare_nan by (left; exact Hr). reflexivity.
Qed.

Lemma X18_nan_ratio_exceeds_witness :
  gentle_fidelity_notes S754_nan (Some c1_0) = [msg_exceed; msg_suggestion] /\
  gentle_fidelity_notes inf (Some inf) = [msg_exceed; msg_suggestion].
Proof.
  split; apply X18_nan_ratio_exceeds; reflexivity.
Defined.

(** X19: with a p-value that is NaN both comparisons with 0.05 are false:
    for [d = 0] the bullet is the one written for p >= 0.05 ("handled by
    AR/MA or the exogenous terms"), for [d >= 1] the one written for
    p < 0.05 ("the model prefers to difference"). *)
Theorem X19_nan_pvalue (p d q : Z) :
  hd_error (dynamic_pdq_interpretation p 0 q (Some S754_nan))
  = Some msg_d0_handled /\
  (1 <= d ->
   hd_error (dynamic_pdq_interpretation p d q (Some S754_nan))
   = Some (msg_d_prefers d)).
Proof.
  split; [reflexivity|]. intros Hd.
  cbn [dynamic_pdq_interpretation hd_error]. unfold d_message.
  destruct (Z.eqb_spec d 0) as [E|_]; [lia|].
  destruct (Z.geb_spec d 1) as [_|N]; [|lia]. reflexivity.
Qed.

Lemma X19_nan_pvalue_witness :
  hd_error (dynamic_pdq_interpretation 2 1 3 (Some S754_nan))
  = Some (msg_d_prefers 1).
Proof.
  apply (proj2 (X19_nan_pvalue 2 1 3)). lia.
Defined.

Lemma p_message_inj (p p' : Z) :
  0 <= p <= 3 -> 0 <= p' <= 3 -> p_message p = p_message p' -> p = p'.
Proof.
  intros Hp Hp'.
  assert (E : p = 0 \/ p = 1 \/ p = 2 \/ p = 3) by lia.
  assert (E' : p' = 0 \/ p' = 1 \/ p' = 2 \/ p' = 3) by lia.
  destruct E as [->|[->|[->| ->]]], E' as [->|[->|[->| ->]]];
    intros H; try reflexivity; vm_compute in H; discriminate H.
Qed.

Lemma q_message_inj (q q' : Z) :
  0 <= q <= 3 -> 0 <= q' <= 3 -> q_message q = q_message q' -> q = q'.
Proof.
  intros Hq Hq'.
  assert (E : q = 0 \/ q = 1 \/ q = 2 \/ q = 3) by lia.
  assert (E' : q' = 0 \/ q' = 1 \/ q' = 2 \/ q' = 3) by lia.
  destruct E as [->|[->|[->| ->]]], E' as [->|[->|[->| ->]]];
    intros H; try reflexivity; vm_compute in H; discriminate H.
Qed.

Lemma d_message_inj (d d' : Z) (adf_p adf_p' : option float) :
  0 <= d <= 1 -> 0 <= d' <= 1 ->
  d_message d adf_p = d_message d' adf_p' -> d = d'.
Proof.
  intros Hd Hd'.
  assert (E : d = 0 \/ d = 1) by lia. assert (E' : d' = 0 \/ d' = 1) by lia.
  destruct E as [-> | ->], E' as [-> | ->]; intros H; try reflexivity;
    exfalso; unfold d_message in H; cbn [Z.eqb Z.geb Z.compare] in H;
    destruct adf_p as [pv|], adf_p' as [pv'|];
    repeat match type of H with
           | context [if ?b then _ else _] => destruct b
           end;
    vm_compute in H; discriminate H.
Qed.

(** X20: on the search grid the three bullets identify the selected order:
    two orders of the grid with the same interpretation, whatever the two
    p-values, are the same order. *)
Theorem X20_interpretation_identifies_order
        (p d q p' d' q' : Z) (adf_p adf_p' : option float) :
  In (p, d, q) grid -> In (p', d', q') grid ->
  dynamic_pdq_interpretation p d q adf_p
  = dynamic_pdq_interpretation p' d' q' adf_p' ->
  (p, d, q) = (p', d', q').
Proof.
  intros Hg Hg' H.
  apply grid_range in Hg. apply grid_range in Hg'.
  destruct Hg as (Hp & Hd & Hq), Hg' as (Hp' & Hd' & Hq').
  unfold dynamic_pdq_interpretation in H. injection H as H1 H2 H3.
  rewrite (d_message_inj d d' adf_p adf_p' Hd Hd' H1).
  rewrite (p_message_inj p p' Hp Hp' H2).
  rewrite (q_message_inj q q' Hq Hq' H3).
  reflexivity.
Qed.

Lemma X20_interpretation_identifies_order_witness :
  (1, 0, 3) = (1, 0, 3).
Proof.
  apply (X20_interpretation_identifies_order 1 0 3 1 0 3 None None).
  - apply grid_range. lia.
  - apply grid_range. lia.
  - reflexivity.
Defined.

(** ** Persistence on the prepared series *)

Lemma sorted_lt_NoDup (l : list Z) : Sorted Z.lt l -> NoDup l.
Proof.
  intros S. apply Sorted_StronglySorted in S; [|intros a b c; lia].
  induction S as [|a l S IH F]; constructor; [|exact IH].
  intros Hin. rewrite Forall_forall in F. specialize (F a Hin). lia.
Qed.

Lemma last_row_by_index {A : Type} (l0 : list (Z * A)) (t t' : Z) (v v' : A) :
  NoDup (index_of (l0 ++ [(t', v')])) ->
  In (t, v) (l0 ++ [(t', v')]) -> t = t' -> v = v'.
Proof.
  intros Hnd Hin ->. apply in_app_or in Hin.
  destruct Hin as [Hin|[E|[]]]; [|congruence].
  exfalso. unfold index_of in Hnd. rewrite map_app in Hnd.
  cbn [map fst] in Hnd. apply NoDup_remove_2 in Hnd. apply Hnd.
  rewrite app_nil_r. change t' with (fst (t', v)). apply in_map, Hin.
Qed.

(** X21: on a sheet with distinct dates whose last date lies a whole
    number of days after the first, the row given to the forecast carries
    the temperature and the humidity observed on the last date of the
    sheet and is dated one day after it. *)
Theorem X21_persistence_of_last_observation
        (lerp : float -> float -> Z -> Z -> float) (table : list table_row)
        (lo hi : Z) (o : obs) :
  NoDup (index_of (dropna table)) ->
  index_min (index_of (dropna table)) = Some lo ->
  index_max (index_of (dropna table)) = Some hi ->
  In (hi, o) (dropna table) ->
  (hi - lo) mod DAY = 0 ->
  exists y ex,
    load_cicalino_data lerp table = Ok (y, ex) /\
    ex_future y ex = Ok (Some (hi + DAY), (temperature o, humidity o)).
Proof.
  intros Hnd Elo Ehi Hin Hm.
  pose proof (PreparationMore.load_distinct_dates lerp table lo hi Hnd Elo Ehi)
    as Hload. cbv zeta in Hload.
  set (sorted := sort_values (dropna table)) in *.
  set (ts := date_range lo hi) in *.
  set (T := interpolate lerp (map (fun t => temperature (loc t sorted)) ts))
    in *.
  set (H := interpolate lerp (map (fun t => humidity (loc t sorted)) ts)) in *.
  set (C := interpolate lerp (map (fun t => captures (loc t sorted)) ts)) in *.
  assert (Hlen : forall h : Z -> float,
             List.length (interpolate lerp (map h ts)) = List.length ts).
  { intros h. unfold interpolate.
    rewrite interpolate_from_length, length_map. reflexivity. }
  assert (Iy : index_of (combine ts C) = ts)
    by (apply Preparation.index_of_combine, Hlen).
  assert (Ie : index_of (combine ts (combine T H)) = ts).
  { apply Preparation.index_of_combine.
    rewrite length_combine. unfold T, H. rewrite !Hlen. apply Nat.min_id. }
  assert (Hlh : lo <= hi).
  { apply (Preparation.index_max_spec _ _ Ehi).
    apply (Preparation.index_min_spec _ _ Elo). }
  assert (Hr : In hi ts)
    by (apply PreparationMore.date_range_In; [lia|exact Hm]).
  assert (Hloc : loc hi sorted = o).
  { apply PreparationMore.loc_unique.
    - eapply Permutation_NoDup;
        [apply Permutation_sym, Preparation.sort_values_perm_index|exact Hnd].
    - eapply Permutation_in;
        [apply Permutation_sym, Preparation.sort_values_perm|exact Hin]. }
  destruct (Preparation.dropna_not_nan table hi o Hin) as (Nt & Nh & _).
  assert (Hex : In (hi, (temperature o, humidity o)) (combine ts (combine T H))).
  { rewrite <- Hloc at 1 2.
    apply (PreparationMore.combine2_interpolate_keep lerp
             (fun t => temperature (loc t sorted))
             (fun t => humidity (loc t sorted)) ts hi Hr);
      cbv beta; rewrite Hloc; assumption. }
  assert (Hsorted : Sorted Z.lt ts)
    by apply Preparation.daily_sorted, Preparation.daily_date_range.
  assert (Hne : combine ts (combine T H) <> [])
    by (intros E; rewrite E in Hex; destruct Hex).
  destruct (exists_last Hne) as (ex0 & [t' v'] & Eex).
  assert (Ets : ts = index_of ex0 ++ [t']).
  { rewrite <- Ie, Eex. unfold index_of. rewrite map_app. reflexivity. }
  assert (Emax : index_max ts = Some t')
    by (rewrite Ets; apply index_max_sorted; rewrite <- Ets; exact Hsorted).
  assert (Et : t' = hi).
  { destruct (Preparation.index_max_spec _ _ Emax) as [Hin' Hle'].
    apply Z.le_antisymm; [|apply Hle', Hr].
    unfold ts, date_range in Hin'. apply in_map_iff in Hin'.
    destruct Hin' as (k & <- & Hk). apply in_seq in Hk.
    assert (HD : 0 < DAY) by reflexivity.
    pose proof (Z.mul_div_le (hi - lo) DAY HD) as Hd.
    assert (H0 : 0 <= (hi - lo) / DAY) by (apply Z.div_pos; lia).
    remember ((hi - lo) / DAY) as D.
    assert (H1 : Z.of_nat k * DAY <= D * DAY)
      by (apply Z.mul_le_mono_nonneg_r; lia).
    rewrite (Z.mul_comm DAY D) in Hd. lia. }
  assert (Ev : (temperature o, humidity o) = v').
  { apply (last_row_by_index ex0 hi t' _ v').
    - rewrite <- Eex, Ie. apply sorted_lt_NoDup, Hsorted.
    - rewrite <- Eex. exact Hex.
    - symmetry. exact Et. }
  exists (combine ts C), (combine ts (combine T H)).
  split; [exact Hload|].
  unfold ex_future, next_day. rewrite Iy, Emax, Eex, rev_app_distr.
  cbn [rev app snd]. rewrite Et, Ev. reflexivity.
Qed.

Lemma X21_persistence_of_last_observation_witness :
  exists y ex,
    load_cicalino_data lerp_left gap_table = Ok (y, ex) /\
    ex_future y ex
    = Ok (Some (3 * DAY + DAY),
          (temperature (mkObs f1_5 c0_5 f3_0), humidity (mkObs f1_5 c0_5 f3_0))).
Proof.
  apply (X21_persistence_of_last_observation lerp_left gap_table 0 (3 * DAY)).
  - repeat constructor; cbn; intuition discriminate.
  - reflexivity.
  - reflexivity.
  - left. reflexivity.
  - reflexivity.
Defined.
